(** * A shallow embedding of python/lsst/display/ginga/ginga.py

    The module adapts the LSST display interface to the ginga viewer.
    The embedding keeps the module's own names ([initGinga],
    [DisplayImpl_init] for [DisplayImpl.__init__], [_mtv], [_dot],
    [_drawLines], [shutdown_server], the [WcsAdaptorForGinga] methods).

    What belongs to the ginga library (its web server, viewers, canvases
    and drawing classes) is modelled as the part of a process state that
    this module touches: server objects, the viewers a server hands out by
    name, the canvases and the objects drawn on them, and a log of the
    forwarding calls made on a viewer.  Python exceptions are values of
    [exn]; a call runs in a state-and-exception monad in which the effects
    performed before an exception stay in the state, as in Python. *)

From Stdlib Require Import String Ascii ZArith QArith.
From stdpp Require Import base list gmap strings.

Set Warnings "-register-all".
Local Open Scope string_scope.

(** ** Python values and exceptions *)

Inductive exn :=
| NameError (name : string)
| TypeError (msg : string)
| ValueError (msg : string)
| IndexError (msg : string)
| AttributeError (name : string)
| RuntimeError (msg : string).

(** The values a caller may pass where the code only compares with [None]
    and formats with [%] (the [maskplane] argument). *)
Inductive pyval :=
| PyNone
| PyStr (s : string)
| PyInt (z : Z)
| PyTuple (l : list pyval)
| PyList (l : list pyval)
| PyDict (kvs : list (pyval * pyval)).

(** [fmt % v] for a format string [fmt] with no conversion specifier
    (CPython's [PyUnicode_Format]): a tuple must be empty, a mapping
    (any object with [__getitem__] other than a tuple or a string, so
    also a list) is accepted and unused, anything else is one argument
    too many. *)
Definition py_percent_noconv (fmt : string) (v : pyval) : exn + string :=
  match v with
  | PyTuple [] => inr fmt
  | PyTuple (_ :: _) =>
      inl (TypeError "not all arguments converted during string formatting")
  | PyDict _ | PyList _ => inr fmt
  | PyNone | PyStr _ | PyInt _ =>
      inl (TypeError "not all arguments converted during string formatting")
  end.

(** [v != None] *)
Definition py_ne_None (v : pyval) : bool :=
  match v with PyNone => false | _ => true end.

(** The double-quote character, used in printed messages. *)
Definition dq : string := String (ascii_of_nat 34) EmptyString.

(** ** Strings: [str.split(sep)] and [str.split()] *)

(** [s.split(sep)] for a one-character separator: always a non-empty
    list. *)
(** The ASCII characters for which [str.isspace()] holds. *)
Definition py_isspace (a : ascii) : bool :=
  let n := nat_of_ascii a in
  (Nat.leb 9 n && Nat.leb n 13) || (Nat.leb 28 n && Nat.leb n 32).

Fixpoint split_pred (p : ascii -> bool) (s : string) : list string :=
  match s with
  | EmptyString => [EmptyString]
  | String a s' =>
      let rest := split_pred p s' in
      if p a then EmptyString :: rest
      else match rest with
           | [] => [String a EmptyString]
           | w :: ws => String a w :: ws
           end
  end.

(** [s.split(sep)] for a one-character separator: always a non-empty
    list. *)
Definition split_on (sep : ascii) (s : string) : list string :=
  split_pred (fun a => Ascii.eqb a sep) s.

(** [s.split()]: split at runs of whitespace, no empty words. *)
Definition py_split (s : string) : list string :=
  filter (fun w => negb (String.eqb w EmptyString)) (split_pred py_isspace s).

(** [int] literals as decimal strings; the concrete float parser of the
    examples at the end of the file, where coordinates are integers. *)
Fixpoint digits_val (s : string) (acc : Z) : option Z :=
  match s with
  | EmptyString => Some acc
  | String c s' =>
      let n := nat_of_ascii c in
      if Nat.leb 48 n && Nat.leb n 57
      then digits_val s' (acc * 10 + Z.of_nat (n - 48))%Z
      else None
  end.

Definition parse_int (s : string) : option Z :=
  match s with
  | EmptyString => None
  | String c s' =>
      if Ascii.eqb c "-"%char
      then match s' with
           | EmptyString => None
           | _ => option_map Z.opp (digits_val s' 0%Z)
           end
      else digits_val s 0%Z
  end.

Section Ginga.

(** [F] is Python's float; image arrays, afw images, masks, afw WCS
    objects, afw angles and pixel positions are the other types. *)
Context {F Arr Img Msk W Ang Pt : Type}.

(** [float_of_string] is [float(p)] on a string ([None] when it raises
    [ValueError]); [float_sub1] is [x - 1]; [degrees] is [math.degrees];
    [getArray] is [Image.getArray()]. *)
Variable float_of_string : string -> option F.
Variable float_sub1 : F -> F.
Variable degrees : F -> F.
Variable getArray : Img -> Arr.

(** ** WcsAdaptorForGinga *)

(** A Python object is its attribute dictionary; an adaptor's only
    attribute, set by [__init__], holds the wrapped WCS object.  A method
    call runs on the object's attributes and may raise. *)
Definition WcsAdaptorForGinga (wcs : W) : gmap string W := {[ "_wcs" := wcs ]}.

Definition AM (A : Type) : Type := gmap string W -> gmap string W * (exn + A).

(** [self.name] *)
Definition self_attr (name : string) : AM W :=
  fun o => (o, match o !! name with
                | Some v => inr v
                | None => inl (AttributeError name)
                end).

(** The afw methods the adaptor calls: [Wcs.pixelToSky(x, y)] gives a
    coordinate whose iteration yields its angles; [Angle.asDegrees()];
    [Wcs.skyToPixel(ra, dec)]; [x * afwGeom.degrees]. *)
Variable pixelToSky : W -> list F -> exn + list Ang.
Variable asDegrees : Ang -> F.
Variable skyToPixel : W -> Ang -> Ang -> exn + Pt.
Variable times_degrees : F -> Ang.

(** [ra, dec = self._wcs.pixelToSky( *idxs); return ra.asDegrees(), dec.asDegrees()] *)
Definition pixtoradec (idxs : list F) (coords : string) : AM (F * F) :=
  fun o =>
    match self_attr "_wcs" o with
    | (o1, inl e) => (o1, inl e)
    | (o1, inr w) =>
        (o1, match pixelToSky w idxs with
             | inl e => inl e
             | inr [ra; dec] => inr (asDegrees ra, asDegrees dec)
             | inr _ => inl (ValueError "wrong number of values to unpack")
             end)
    end.

(** [return self.pixtoradec(idxs, coords=coords)]; [system] is unused. *)
Definition pixtosystem (idxs : list F) (system : pyval) (coords : string)
  : AM (F * F) :=
  pixtoradec idxs coords.

(** The module-level binding of the name [wcs]: ginga.py binds no global
    [wcs] (its globals are the imports, [_maskTransparency], the functions
    and the classes), and [wcs] is not a builtin. *)
Definition module_global_wcs : option W := None.

(** [return wcs.skyToPixel(ra_deg*afwGeom.degrees, dec_deg*afwGeom.degrees)]:
    the bare name [wcs] is looked up in the module's globals. *)
Definition radectopix (ra_deg dec_deg : F) (coords : string) (naxispath : pyval)
  : AM Pt :=
  fun o =>
    (o, match module_global_wcs with
        | None => inl (NameError "wcs")
        | Some w => skyToPixel w (times_degrees ra_deg) (times_degrees dec_deg)
        end).

(** ** The ginga objects this module drives *)

(** Drawing objects built from the canvas's draw classes [Line], [Text],
    [Circle] and [Ellipse]. *)
Inductive prim :=
| PLine (x1 y1 x2 y2 : F) (color : string)
| PText (x y : F) (text : string) (color : string)
| PCircle (x y : F) (radius : F) (color : string)
| PEllipse (x y : F) (xradius yradius rot_deg : F) (color : string).

(** [Line( *args, color=ctype)]: ginga's [Line(x1, y1, x2, y2, color=...)]
    takes four positions; any other number of positional arguments is a
    [TypeError] (a fifth one would be [color] given twice). *)
Definition mk_Line (args : list F) (color : string) : exn + prim :=
  match args with
  | [x1; y1; x2; y2] => inr (PLine x1 y1 x2 y2 color)
  | _ => inl (TypeError "Line() takes x1, y1, x2, y2")
  end.

(** An [AstroImage] built from the array data, with the WCS set by
    [set_wcs] if any (an adaptor object). *)
Record astro_image := mk_astro_image {
  ai_data : Arr;
  ai_wcs : option (gmap string W)
}.

(** Arguments of [_scale] that may be a string or a number. *)
Inductive scale_arg :=
| SAStr (s : string)
| SANum (x : F).

(** The calls this module forwards to a viewer, in the order made. *)
Inductive vcall :=
| VSetCanvasFormat (fmt : string)
| VOpen
| VSetImage (im : astro_image)
| VSetColorMap (name : string)
| VSetColorAlgorithm (alg : string)
| VSetAutocutParams (method : string) (contrast : option Q)
| VAutoLevels
| VCutLevels (lo hi : scale_arg)
| VScaleTo (sx sy : F)
| VSetPan (x y : F).

(** A viewer: the canvases added to it (by id) and the calls made on it. *)
Record viewer := mk_viewer {
  v_canvases : list nat;
  v_calls : list vcall
}.

Inductive server_status := Created | Started (no_ioloop : bool) | Stopped.

(** A server made by [ipg.make_server(host=..., port=..., use_opencv=...)]. *)
Record server := mk_server {
  srv_host : string;
  srv_port : Z;
  srv_use_opencv : bool;
  srv_status : server_status
}.

Definition srv_running (s : server) : bool :=
  match srv_status s with Started _ => true | _ => false end.

(** The process state.
    - [w_server]: the module global [server]; [None] while the name is
      unbound, [Some None] when bound to [None].
    - [w_cls_server]: the class attribute [DisplayImpl.server] (a server id).
    - [w_servers]: every server object made, indexed by id.
    - [w_viewers]: the viewers of each server, by server id and name
      ([server.get_viewer(name)]).
    - [w_canvases]: the objects on each canvas, by canvas id.
    - [w_stdout], [w_stderr]: lines printed. *)
Record world := mk_world {
  w_server : option (option nat);
  w_cls_server : option nat;
  w_servers : list server;
  w_viewers : gmap (nat * string) viewer;
  w_canvases : gmap nat (list prim);
  w_next_canvas : nat;
  w_stdout : list string;
  w_stderr : list string
}.

(** A fresh process after [import]: the [if False:] block that would bind
    the global [server] never runs, so the name is unbound; the class body
    sets [DisplayImpl.server = None]. *)
Definition init_world : world :=
  mk_world None None [] ∅ ∅ 0 [] [].

Definition set_cls_server (s : option nat) (w : world) : world :=
  mk_world (w_server w) s (w_servers w) (w_viewers w) (w_canvases w)
    (w_next_canvas w) (w_stdout w) (w_stderr w).
Definition set_server_global (s : option (option nat)) (w : world) : world :=
  mk_world s (w_cls_server w) (w_servers w) (w_viewers w) (w_canvases w)
    (w_next_canvas w) (w_stdout w) (w_stderr w).
Definition set_servers (l : list server) (w : world) : world :=
  mk_world (w_server w) (w_cls_server w) l (w_viewers w) (w_canvases w)
    (w_next_canvas w) (w_stdout w) (w_stderr w).
Definition set_viewers (m : gmap (nat * string) viewer) (w : world) : world :=
  mk_world (w_server w) (w_cls_server w) (w_servers w) m (w_canvases w)
    (w_next_canvas w) (w_stdout w) (w_stderr w).
Definition set_canvases (m : gmap nat (list prim)) (n : nat) (w : world)
  : world :=
  mk_world (w_server w) (w_cls_server w) (w_servers w) (w_viewers w) m n
    (w_stdout w) (w_stderr w).
Definition add_stdout (line : string) (w : world) : world :=
  mk_world (w_server w) (w_cls_server w) (w_servers w) (w_viewers w)
    (w_canvases w) (w_next_canvas w) (w_stdout w ++ [line])%list (w_stderr w).
Definition add_stderr (line : string) (w : world) : world :=
  mk_world (w_server w) (w_cls_server w) (w_servers w) (w_viewers w)
    (w_canvases w) (w_next_canvas w) (w_stdout w) (w_stderr w ++ [line])%list.

(** ** The state-and-exception monad *)

Definition M (A : Type) : Type := world -> world * (exn + A).

Global Instance M_ret : MRet M := fun A a w => (w, inr a).
Global Instance M_bind : MBind M := fun A B k m w =>
  match m w with
  | (w', inl e) => (w', inl e)
  | (w', inr a) => k a w'
  end.

Definition raise {A} (e : exn) : M A := fun w => (w, inl e).
Definition modify (f : world -> world) : M unit := fun w => (f w, inr tt).
Definition gets {A} (f : world -> A) : M A := fun w => (w, inr (f w)).
Definition of_sum {A} (r : exn + A) : M A :=
  fun w => (w, r).

Definition print (line : string) : M unit := modify (add_stdout line).
Definition print_stderr (line : string) : M unit := modify (add_stderr line).

(** ** Servers: [ipg.make_server], [server.start], [server.stop] *)

Definition make_server (host : string) (port : Z) (use_opencv : bool) : M nat :=
  fun w =>
    (set_servers ((w_servers w ++ [mk_server host port use_opencv Created])%list) w,
     inr (length (w_servers w))).

Definition set_status (st : server_status) (s : server) : server :=
  mk_server (srv_host s) (srv_port s) (srv_use_opencv s) st.

Definition server_start (sid : nat) (no_ioloop : bool) : M unit :=
  modify (fun w => set_servers (alter (set_status (Started no_ioloop)) sid (w_servers w)) w).

Definition server_stop (sid : nat) : M unit :=
  modify (fun w => set_servers (alter (set_status Stopped) sid (w_servers w)) w).

(** [server.get_viewer(name)]: the viewer already registered under [name],
    or a new one registered under it. *)
Definition get_viewer (sid : nat) (name : string) : M (nat * string) :=
  fun w =>
    let key := (sid, name) in
    (match w_viewers w !! key with
     | Some _ => w
     | None => set_viewers (<[key := mk_viewer [] []]> (w_viewers w)) w
     end, inr key).

(** [viewer.add_canvas()]: a new, empty canvas added to the viewer. *)
Definition add_canvas (key : nat * string) : M nat :=
  fun w =>
    let cid := w_next_canvas w in
    let v := default (mk_viewer [] []) (w_viewers w !! key) in
    let w1 := set_viewers (<[key := mk_viewer (v_canvases v ++ [cid])%list (v_calls v)]>
                             (w_viewers w)) w in
    (set_canvases (<[cid := []]> (w_canvases w1)) (S cid) w1, inr cid).

(** A forwarding call on a viewer. *)
Definition viewer_call (key : nat * string) (c : vcall) : M unit :=
  modify (fun w =>
    set_viewers (alter (fun v => mk_viewer (v_canvases v) (v_calls v ++ [c])%list) key
                   (w_viewers w)) w).

(** [canvas.add(obj)] and [canvas.delete_all_objects()]. *)
Definition canvas_add (cid : nat) (p : prim) : M unit :=
  modify (fun w =>
    set_canvases (<[cid := (default [] (w_canvases w !! cid) ++ [p])%list]> (w_canvases w))
      (w_next_canvas w) w).

Definition canvas_delete_all (cid : nat) : M unit :=
  modify (fun w =>
    set_canvases (<[cid := []]> (w_canvases w)) (w_next_canvas w) w).

(** ** initGinga *)

(** [global server; if not server: server = ipg.make_server(...);
    server.start(no_ioloop=no_ioloop)].  Reading an unbound global raises
    [NameError]; a server object is true. *)
Definition initGinga (host : string) (port : Z) (use_opencv no_ioloop : bool)
  : M unit :=
  g ← gets w_server;
  match g with
  | None => raise (NameError "server")
  | Some (Some _) => mret ()
  | Some None =>
      sid ← make_server host port use_opencv;
      modify (set_server_global (Some (Some sid))) ;;
      server_start sid no_ioloop
  end.

(** ** DisplayImpl *)

(** An instance: [self.display] (the viewer, by server id and name) and
    [self._canvas]. *)
Record display_impl := mk_display_impl {
  di_display : nat * string;
  di_canvas : nat
}.

Definition canvas_types : list string := ["jpeg"; "png"].

(** [DisplayImpl.__init__]; [frame] is [str(display.frame)]. *)
Definition DisplayImpl_init (frame : string) (verbose open : bool)
    (host : string) (port : Z) (use_opencv no_ioloop : bool)
    (canvas_format : string) : M display_impl :=
  cur ← gets w_cls_server;
  sid ← match cur with
        | Some sid => mret sid
        | None =>
            sid ← make_server host port use_opencv;
            modify (set_cls_server (Some sid)) ;;
            server_start sid no_ioloop ;;
            mret sid
        end;
  key ← get_viewer sid frame;
  cid ← add_canvas key;
  (if existsb (String.eqb canvas_format) canvas_types
   then viewer_call key (VSetCanvasFormat canvas_format)
   else print ("Unknown format " ++ dq ++ canvas_format ++ dq ++ " (allowed: "
               ++ dq ++ "jpeg" ++ dq ++ ", " ++ dq ++ "png" ++ dq ++ ")")) ;;
  (if open then viewer_call key VOpen else mret ()) ;;
  mret (mk_display_impl key cid).

(** [if DisplayImpl.server: DisplayImpl.server.stop(); DisplayImpl.server = None] *)
Definition shutdown_server : M unit :=
  cur ← gets w_cls_server;
  match cur with
  | Some sid => server_stop sid ;; modify (set_cls_server None)
  | None => mret ()
  end.

(** ** DisplayImpl methods *)

(** The symbol argument of [_dot]: an [afwGeom.ellipses.BaseCore] (given
    by [getA()], [getB()], [getTheta()]) or a string. *)
Inductive symbol :=
| SymCore (a b theta : F)
| SymStr (s : string).

(** [ds9Regions.dot(symb, c, r, size, fontFamily=..., textAngle=...)] of
    lsst.afw.display: the region commands for a symbol, or an exception. *)
Variable ds9_dot : string -> F -> F -> F -> string -> option F -> exn + list string.

(** [[float(p) - 1 for p in ps]] *)
Fixpoint floats_minus_1 (ps : list string) : exn + list F :=
  match ps with
  | [] => inr []
  | p :: ps' =>
      match float_of_string p with
      | None => inl (ValueError "could not convert string to float")
      | Some x =>
          match floats_minus_1 ps' with
          | inl e => inl e
          | inr xs => inr (float_sub1 x :: xs)
          end
      end
  end.

(** One pass of the loop of [_dot] over the region commands: the object
    to add for [ds9Cmd], or the exception raised.
      tmp = ds9Cmd.split('#'); cmd = tmp.pop(0).split()
      comment = tmp.pop(0) if tmp else ""
      cmd, args = cmd[0], cmd[1:]
      line: Line( *[float(p) - 1 for p in args], color=ctype)
      text: x, y = [float(p) - 1 for p in args[0:2]]; Text(x, y, symb, color=ctype)
      else: raise RuntimeError(ds9Cmd) *)
Definition dot_region_cmd (symb ctype ds9Cmd : string) : exn + prim :=
  let tmp := split_on "#"%char ds9Cmd in
  let cmd := match tmp with t :: _ => py_split t | [] => [] end in
  match cmd with
  | [] => inl (IndexError "list index out of range")
  | name :: args =>
      if String.eqb name "line" then
        match floats_minus_1 args with
        | inl e => inl e
        | inr xs => mk_Line xs ctype
        end
      else if String.eqb name "text" then
        match floats_minus_1 (take 2 args) with
        | inl e => inl e
        | inr [x; y] => inr (PText x y symb ctype)
        | inr _ => inl (ValueError "not enough values to unpack")
        end
      else inl (RuntimeError ds9Cmd)
  end.

Section Methods.
Variable self : display_impl.

(** [_erase]: [self._canvas.delete_all_objects()] *)
Definition _erase : M unit := canvas_delete_all (di_canvas self).

(** [_setMaskTransparency]: for a maskplane other than [None] the message
    is formatted with [% maskplane] (it has no conversion specifier) and
    printed to [sys.stderr]. *)
Definition _setMaskTransparency (transparency maskplane : pyval) : M unit :=
  if py_ne_None maskplane
  then msg ← of_sum (py_percent_noconv
           "ginga is unable to set transparency for individual maskplanes"
           maskplane);
       print_stderr msg
  else mret ().

(** [_getMaskTransparency]: a docstring only. *)
Definition _getMaskTransparency (maskplane : pyval) : M unit := mret ().

(** [_mtv]: an image or mask object is true, [None] is false. *)
Definition _mtv (image : option Img) (mask : option Msk) (wcs : option W)
    (title : string) : M unit :=
  _erase ;;
  (match image with
   | Some im =>
       let ai := mk_astro_image (getArray im)
                   (match wcs with
                    | Some w => Some (WcsAdaptorForGinga w)
                    | None => None
                    end) in
       viewer_call (di_display self) (VSetImage ai)
   | None => mret ()
   end) ;;
  (match mask with
   | Some _ => print "Mask displays are not yet supported in Ginga"
   | None => mret ()
   end).

(** The loop [for ds9Cmd in ...] of [_dot]. *)
Fixpoint dot_region_loop (symb ctype : string) (cmds : list string) : M unit :=
  match cmds with
  | [] => mret ()
  | ds9Cmd :: cmds' =>
      p ← of_sum (dot_region_cmd symb ctype ds9Cmd);
      canvas_add (di_canvas self) p ;;
      dot_region_loop symb ctype cmds'
  end.

(** [_dot] *)
Definition _dot (symb : symbol) (c r size : F) (ctype : string)
    (fontFamily : string) (textAngle : option F) : M unit :=
  match symb with
  | SymCore a b theta =>
      canvas_add (di_canvas self) (PEllipse c r a b (degrees theta) ctype)
  | SymStr sy =>
      if String.eqb sy "o" then canvas_add (di_canvas self) (PCircle c r size ctype)
      else cmds ← of_sum (ds9_dot sy c r size "helvetica" None);
           dot_region_loop sy ctype cmds
  end.

(** The loop of [_drawLines] from the current point [p0]. *)
Fixpoint draw_from (p0 : F * F) (ps : list (F * F)) (ctype : string) : M unit :=
  match ps with
  | [] => mret ()
  | p :: ps' =>
      canvas_add (di_canvas self) (PLine p0.1 p0.2 p.1 p.2 ctype) ;;
      draw_from p ps' ctype
  end.

(** [_drawLines]: [p0 = points[0]] raises [IndexError] on an empty list. *)
Definition _drawLines (points : list (F * F)) (ctype : string) : M unit :=
  match points with
  | [] => raise (IndexError "list index out of range")
  | p0 :: ps => draw_from p0 ps ctype
  end.

Definition is_str (a : scale_arg) (s : string) : bool :=
  match a with SAStr t => String.eqb t s | SANum _ => false end.

(** [_scale]; its argument [unit] (here [unit_]) is true when it is a
    non-empty string. *)
Definition _scale (algorithm : string) (min max : scale_arg) (unit_ : option string)
  : M unit :=
  let key := di_display self in
  viewer_call key (VSetColorMap "gray") ;;
  viewer_call key (VSetColorAlgorithm algorithm) ;;
  if is_str min "zscale" then
    viewer_call key (VSetAutocutParams "zscale" (Some (1 # 4)%Q)) ;;
    viewer_call key VAutoLevels
  else if is_str min "minmax" then
    viewer_call key (VSetAutocutParams "minmax" None) ;;
    viewer_call key VAutoLevels
  else
    (match unit_ with
     | Some u =>
         if String.eqb u "" then mret () else print ("ginga: ignoring scale unit " ++ u)
     | None => mret ()
     end) ;;
    viewer_call key (VCutLevels min max).

(** [_zoom] and [_pan] *)
Definition _zoom (zoomfac : F) : M unit :=
  viewer_call (di_display self) (VScaleTo zoomfac zoomfac).

Definition _pan (colc rowc : F) : M unit :=
  viewer_call (di_display self) (VSetPan colc rowc).

End Methods.

(** ** Calls on an instance and sequences of top-level calls *)

(** The methods of [DisplayImpl] an instance can be called with. *)
Inductive op :=
| OpGetViewer
| OpShutdownServer
| OpShowColorBar
| OpShowPanMark
| OpClose
| OpSetMaskTransparency (transparency maskplane : pyval)
| OpGetMaskTransparency (maskplane : pyval)
| OpMtv (image : option Img) (mask : option Msk) (wcs : option W) (title : string)
| OpBuffer (enable : bool)
| OpFlush
| OpErase
| OpDot (symb : symbol) (c r size : F) (ctype fontFamily : string)
    (textAngle : option F)
| OpDrawLines (points : list (F * F)) (ctype : string)
| OpScale (algorithm : string) (min max : scale_arg) (unit_ : option string)
| OpZoom (zoomfac : F)
| OpPan (colc rowc : F)
| OpGetEvent.

(** [show_color_bar(show=True)] and [show_pan_mark(show=True, color='red')]
    are declared without [self]: the instance is bound to [show] and the
    body's [self] is an unbound global.  [XXX_getEvent] raises first. *)
Definition run_op (self : display_impl) (o : op) : M unit :=
  match o with
  | OpGetViewer => mret ()
  | OpShutdownServer => shutdown_server
  | OpShowColorBar => raise (NameError "self")
  | OpShowPanMark => raise (NameError "self")
  | OpClose => mret ()
  | OpSetMaskTransparency t mp => _setMaskTransparency t mp
  | OpGetMaskTransparency mp => _getMaskTransparency mp
  | OpMtv im mk wcs title => _mtv self im mk wcs title
  | OpBuffer _ => mret ()
  | OpFlush => mret ()
  | OpErase => _erase self
  | OpDot sy c r size ctype ff ta => _dot self sy c r size ctype ff ta
  | OpDrawLines pts ctype => _drawLines self pts ctype
  | OpScale alg mn mx u => _scale self alg mn mx u
  | OpZoom z => _zoom self z
  | OpPan c r => _pan self c r
  | OpGetEvent => raise (RuntimeError "Write me")
  end.

(** Top-level calls in one process: constructing a display, [initGinga],
    or a method call on an instance (an exception ends the call, not the
    process). *)
Inductive action :=
| ANewDisplay (frame : string) (verbose open : bool) (host : string) (port : Z)
    (use_opencv no_ioloop : bool) (canvas_format : string)
| AInitGinga (host : string) (port : Z) (use_opencv no_ioloop : bool)
| ACall (self : display_impl) (o : op).

Definition run_action (a : action) : M unit :=
  match a with
  | ANewDisplay fr vb op h p oc nl fmt =>
      _ ← DisplayImpl_init fr vb op h p oc nl fmt; mret ()
  | AInitGinga h p oc nl => initGinga h p oc nl
  | ACall self o => run_op self o
  end.

Fixpoint run_actions (acts : list action) (w : world) : world :=
  match acts with
  | [] => w
  | a :: acts' => run_actions acts' (run_action a w).1
  end.

(** ** Vocabulary of the properties *)

(** Adding objects to a canvas one [canvas.add] at a time. *)
Fixpoint add_all (cid : nat) (ps : list prim) (w : world) : world :=
  match ps with
  | [] => w
  | p :: ps' => add_all cid ps' (canvas_add cid p w).1
  end.

(** The segments joining consecutive points, in order. *)
Definition segments (pts : list (F * F)) (ctype : string) : list prim :=
  zip_with (fun p q => PLine p.1 p.2 q.1 q.2 ctype) pts (tail pts).

(** The command name and the arguments of a region command: the words of
    the text before its first ['#']. *)
Definition cmd_words (ds9Cmd : string) : list string :=
  py_split (default EmptyString (head (split_on "#"%char ds9Cmd))).

Definition cmd_name (ds9Cmd : string) : option string := head (cmd_words ds9Cmd).

Definition cmd_args (ds9Cmd : string) : list string := tail (cmd_words ds9Cmd).

(** The object drawn for a region command with every coordinate moved
    from 1-based to 0-based: all four of a [line], the first two of a
    [text]. *)
Definition shifted_prim (sy ctype ds9Cmd : string) (p : prim) : Prop :=
  (cmd_name ds9Cmd = Some "line" /\
   exists x1 y1 x2 y2,
     map float_of_string (cmd_args ds9Cmd) = [Some x1; Some y1; Some x2; Some y2] /\
     p = PLine (float_sub1 x1) (float_sub1 y1) (float_sub1 x2) (float_sub1 y2) ctype)
  \/
  (cmd_name ds9Cmd = Some "text" /\
   exists x y,
     map float_of_string (take 2 (cmd_args ds9Cmd)) = [Some x; Some y] /\
     p = PText (float_sub1 x) (float_sub1 y) sy ctype).

(** The canvases of a viewer (none for a viewer not yet made). *)
Definition v_canvases_of (w : world) (key : nat * string) : list nat :=
  default [] (v_canvases <$> w_viewers w !! key).

(** The calls made on a viewer (none for a viewer not yet made). *)
Definition v_calls_of (w : world) (key : nat * string) : list vcall :=
  default [] (v_calls <$> w_viewers w !! key).

(** The methods that delete the objects of the instance's canvas. *)
Definition erases (o : op) : bool :=
  match o with OpErase | OpMtv _ _ _ _ => true | _ => false end.

(** The objects on a canvas (none for a canvas not yet made). *)
Definition objects_of (w : world) (cid : nat) : list prim :=
  default [] (w_canvases w !! cid).

(** The server part of the process state: the global [server], the class
    attribute [DisplayImpl.server] and the servers made. *)
Definition server_state (w : world) : option (option nat) * option nat * list server :=
  (w_server w, w_cls_server w, w_servers w).

(** Every server made is stopped, except the one [DisplayImpl.server]
    holds, which is started; the global [server] is unbound. *)
Definition servers_ok (w : world) : Prop :=
  w_server w = None /\
  (forall i s, w_servers w !! i = Some s ->
     srv_status s = Stopped \/
     (w_cls_server w = Some i /\ exists nl, srv_status s = Started nl)) /\
  (forall sid, w_cls_server w = Some sid ->
     exists s nl, w_servers w !! sid = Some s /\ srv_status s = Started nl).

(** Every viewer belongs to a server made (its key starts with the
    server's index). *)
Definition viewers_ok (w : world) : Prop :=
  forall k v, w_viewers w !! k = Some v -> k.1 < length (w_servers w).

(** Two states that differ at most in what was printed. *)
Definition same_display (w w' : world) : Prop :=
  w_server w = w_server w' /\ w_cls_server w = w_cls_server w' /\
  w_servers w = w_servers w' /\ w_viewers w = w_viewers w' /\
  w_canvases w = w_canvases w' /\ w_next_canvas w = w_next_canvas w'.

End Ginga.


(** ** Concrete inputs

    Integer coordinates: [float(p)] parses a decimal integer and [x - 1]
    is [Z.pred]; images, masks and WCS objects carry no data. *)

Fixpoint digits_of (fuel : nat) (n : Z) (acc : string) : string :=
  match fuel with
  | O => acc
  | S f =>
      let acc' := String (ascii_of_nat (48 + Z.to_nat (Z.rem n 10))) acc in
      if Z.ltb n 10 then acc' else digits_of f (Z.quot n 10) acc'
  end.

(** ["%g" % z] for an integer [z] of at most six digits. *)
Definition Z_to_string (z : Z) : string :=
  if Z.ltb z 0 then "-" ++ digits_of 20 (- z) "" else digits_of 20 z "".

(** The region commands of [ds9Regions.dot] (no colour given) for the
    symbols ['+'] and ['o'] and for text, at integer positions: it moves
    to 1-based coordinates first. *)
Definition ex_ds9_dot (symb : string) (c r size : Z) (fontFamily : string)
    (textAngle : option Z) : exn + list string :=
  let c1 := (c + 1)%Z in
  let r1 := (r + 1)%Z in
  let g := Z_to_string in
  if String.eqb symb "+" then
    inr ["line " ++ g c1 ++ " " ++ g (r1 + size)%Z ++ " " ++ g c1 ++ " " ++ g (r1 - size)%Z;
         "line " ++ g (c1 - size)%Z ++ " " ++ g r1 ++ " " ++ g (c1 + size)%Z ++ " " ++ g r1]
  else if String.eqb symb "o" then
    inr ["circle " ++ g c1 ++ " " ++ g r1 ++ " " ++ g size]
  else
    inr ["text " ++ g c1 ++ " " ++ g r1 ++ " " ++ dq ++ symb ++ dq ++ " # "].

Definition ex_world0 : @world Z unit unit := init_world.

(** A display on frame 1, as [Display(frame=1)] would make it. *)
Definition ex_init : @world Z unit unit * (exn + display_impl) :=
  DisplayImpl_init "1" false false "localhost" 9914%Z false true "jpeg" ex_world0.

Definition ex_self : display_impl := mk_display_impl (0, "1") 0.

(** The display after drawing a circle with [_dot]. *)
Definition ex_world1 : @world Z unit unit :=
  (_dot (Arr:=unit) (W:=unit) parse_int Z.pred id ex_ds9_dot ex_self
     (SymStr "o") 10%Z 20%Z 3%Z "red" "helvetica" None ex_init.1).1.

(** Method calls on the example display. *)
Definition ex_run_op : display_impl -> op -> M unit :=
  run_op (F:=Z) (Arr:=unit) (Img:=unit) (Msk:=unit) (W:=unit)
    parse_int Z.pred id (fun _ => tt) ex_ds9_dot.

(** A region generator whose second command is not a [line] or a [text]. *)
Definition ex_bad_dot (symb : string) (c r size : Z) (fontFamily : string)
    (textAngle : option Z) : exn + list string :=
  inr ["line 1 2 3 4"; "box 5 6 7 8"; "line 1 1 2 2"].


(** * Properties *)

Local Open Scope list_scope.

Ltac unfold_monad :=
  unfold print, print_stderr, mbind, M_bind, mret, M_ret, raise, modify, gets,
    of_sum in *.

Section Proofs.
Context {F Arr Img Msk W Ang Pt : Type}.
Variable float_of_string : string -> option F.
Variable float_sub1 : F -> F.
Variable degrees : F -> F.
Variable getArray : Img -> Arr.
Variable ds9_dot : string -> F -> F -> F -> string -> option F -> exn + list string.

Local Abbreviation world := (@world F Arr W).
Local Abbreviation M := (@M F Arr W).
Local Abbreviation run_action :=
  (run_action (Msk:=Msk) (W:=W) float_of_string float_sub1 degrees getArray ds9_dot).
Local Abbreviation run_actions :=
  (run_actions (Msk:=Msk) (W:=W) float_of_string float_sub1 degrees getArray ds9_dot).

(** ** Invariants of monadic code

    [keeps P m]: running [m] from a state satisfying [P] ends in a state
    satisfying [P], whether [m] returns or raises. *)

Definition keeps {A} (P : world -> Prop) (m : M A) : Prop :=
  forall w, P w -> P (m w).1.

Lemma keeps_bind {A B} (P : world -> Prop) (m : M A) (k : A -> M B) :
  keeps P m -> (forall a, keeps P (k a)) -> keeps P (m ≫= k).
Proof.
  intros Hm Hk w Hw. unfold mbind, M_bind.
  specialize (Hm w Hw). destruct (m w) as [w' [e|a]]; simpl in *; [exact Hm | apply Hk, Hm].
Qed.

Lemma keeps_ret {A} (P : world -> Prop) (a : A) : keeps P (mret a).
Proof. intros w Hw. exact Hw. Qed.

Lemma keeps_raise {A} (P : world -> Prop) (e : exn) : keeps P (raise (A:=A) e).
Proof. intros w Hw. exact Hw. Qed.

Lemma keeps_gets {A} (P : world -> Prop) (f : world -> A) : keeps P (gets f).
Proof. intros w Hw. exact Hw. Qed.

Lemma keeps_of_sum {A} (P : world -> Prop) (r : exn + A) : keeps P (of_sum r).
Proof. intros w Hw. exact Hw. Qed.

Lemma keeps_modify (P : world -> Prop) (f : world -> world) :
  (forall w, P w -> P (f w)) -> keeps P (modify f).
Proof. intros Hf w Hw. exact (Hf w Hw). Qed.

Create HintDb keeps.
#[local] Hint Resolve keeps_ret keeps_raise keeps_gets keeps_of_sum : keeps.

(** Split a monadic program into its steps, cases included. *)
Ltac keeps_split :=
  repeat match goal with
  | |- keeps _ (_ ≫= _) => apply keeps_bind; [|intros ?]
  | |- keeps _ (match ?x with _ => _ end) => destruct x
  | |- keeps _ (if ?b then _ else _) => destruct b
  end.

(** The drawing loops only add objects to the instance's canvas. *)
Lemma keeps_dot_region_loop (P : world -> Prop) self sy ctype cmds :
  (forall p, keeps P (canvas_add (di_canvas self) p)) ->
  keeps P (dot_region_loop float_of_string float_sub1 self sy ctype cmds).
Proof.
  intros Hadd. induction cmds as [|c cmds IH]; simpl; keeps_split; auto with keeps.
Qed.

Lemma keeps_draw_from (P : world -> Prop) self p0 ps ctype :
  (forall p, keeps P (canvas_add (di_canvas self) p)) ->
  keeps P (draw_from (Arr:=Arr) (W:=W) self p0 ps ctype).
Proof.
  intros Hadd. revert p0. induction ps as [|p ps IH]; intros p0; simpl;
    keeps_split; auto with keeps.
Qed.

(** ** The global [server] is never bound *)

Definition server_unbound (w : world) : Prop := w_server w = None.

Lemma keeps_unbound_modify (f : world -> world) :
  (forall w, w_server (f w) = w_server w) -> keeps server_unbound (modify f).
Proof. intros Hf. apply keeps_modify. intros w Hw. unfold server_unbound in *. by rewrite Hf. Qed.

Lemma keeps_unbound_make_server h p oc : keeps server_unbound (make_server h p oc).
Proof. intros w Hw. exact Hw. Qed.

Lemma keeps_unbound_get_viewer sid name : keeps server_unbound (get_viewer sid name).
Proof. intros w Hw. unfold get_viewer. by case_match. Qed.

Lemma keeps_unbound_add_canvas key : keeps server_unbound (add_canvas key).
Proof. intros w Hw. exact Hw. Qed.

#[local] Hint Resolve keeps_unbound_make_server keeps_unbound_get_viewer
  keeps_unbound_add_canvas : keeps.

Ltac keeps_unbound :=
  keeps_split; eauto with keeps;
  try (apply keeps_unbound_modify; intros; reflexivity).

Lemma keeps_unbound_init fr vb op h p oc nl fmt :
  keeps server_unbound (DisplayImpl_init fr vb op h p oc nl fmt).
Proof.
  unfold DisplayImpl_init, server_start, viewer_call, print. keeps_unbound.
Qed.

Lemma keeps_unbound_run_op self (o : op) :
  keeps server_unbound
    (run_op (Msk:=Msk) float_of_string float_sub1 degrees getArray ds9_dot self o).
Proof.
  destruct o; simpl;
    unfold shutdown_server, server_stop, _setMaskTransparency,
      _getMaskTransparency, _mtv, _erase, canvas_delete_all, viewer_call,
      _dot, canvas_add, _drawLines, _scale, _zoom, _pan, print, print_stderr;
    keeps_unbound;
    first [apply keeps_dot_region_loop | apply keeps_draw_from];
    intros; unfold canvas_add; keeps_unbound.
Qed.

Lemma keeps_unbound_run_action (a : action) : keeps server_unbound (run_action a).
Proof.
  destruct a; simpl.
  - apply keeps_bind; [apply keeps_unbound_init | intros; apply keeps_ret].
  - intros w Hw. unfold initGinga. unfold_monad. simpl. by rewrite Hw.
  - apply keeps_unbound_run_op.
Qed.

Lemma run_actions_unbound (acts : list action) (w : world) :
  server_unbound w -> server_unbound (run_actions acts w).
Proof.
  revert w. induction acts as [|a acts IH]; intros w Hw; simpl; [exact Hw|].
  apply IH, keeps_unbound_run_action, Hw.
Qed.

(** ** Servers made and stopped by [DisplayImpl] *)

Lemma alter_last {A} (f : A -> A) (l : list A) (x : A) :
  alter f (length l) (l ++ [x]) = l ++ [f x].
Proof. induction l as [|y l IH]; simpl; [done|]. f_equal. exact IH. Qed.

(** The server part of [DisplayImpl.__init__]: reuse [DisplayImpl.server],
    or make and start one and store it there. *)
Lemma DisplayImpl_init_servers fr vb op h p oc nl fmt (w : world) :
  let w' := (DisplayImpl_init fr vb op h p oc nl fmt w).1 in
  match w_cls_server w with
  | Some sid => w_cls_server w' = Some sid /\ w_servers w' = w_servers w
  | None =>
      w_cls_server w' = Some (length (w_servers w)) /\
      w_servers w' = w_servers w ++ [mk_server h p oc (Started nl)]
  end.
Proof.
  unfold DisplayImpl_init, make_server, server_start, get_viewer, add_canvas,
    viewer_call. unfold_monad. simpl.
  destruct (w_cls_server w) as [sid|] eqn:Hc; simpl.
  - destruct (existsb (String.eqb fmt) canvas_types), op; simpl;
      repeat (case_match; simplify_eq/=); auto.
  - rewrite alter_last.
    destruct (existsb (String.eqb fmt) canvas_types), op; simpl;
      repeat (case_match; simplify_eq/=); auto.
Qed.

Lemma shutdown_server_none (w : world) :
  w_cls_server w = None -> shutdown_server w = (w, inr ()).
Proof. intros Hc. unfold shutdown_server. unfold_monad. simpl. by rewrite Hc. Qed.

(** ** Running a step that returns *)

Lemma bind_inr {A B} (m : M A) (k : A -> M B) (w w' : world) (a : A) :
  m w = (w', inr a) -> (m ≫= k) w = k a w'.
Proof. intros E. unfold mbind, M_bind. by rewrite E. Qed.

Lemma _erase_eq self (w : world) :
  _erase self w =
  (set_canvases (<[di_canvas self := []]> (w_canvases w)) (w_next_canvas w) w, inr ()).
Proof. reflexivity. Qed.

(** ** The loop of [_drawLines] *)

Lemma draw_from_add_all self (p0 : F * F) (ps : list (F * F)) ctype (w : world) :
  draw_from self p0 ps ctype w =
  (add_all (di_canvas self) (segments (p0 :: ps) ctype) w, inr ()).
Proof.
  revert p0 w. induction ps as [|p ps IH]; intros p0 w; [reflexivity|].
  simpl. unfold mbind, M_bind. simpl. rewrite IH. reflexivity.
Qed.

Lemma length_segments (pts : list (F * F)) ctype :
  length (segments pts ctype) = length pts - 1.
Proof.
  unfold segments. rewrite length_zip_with.
  destruct pts; simpl; [reflexivity|]. destruct (length pts); [reflexivity|]. rewrite Nat.min_r; lia.
Qed.

(** ** The region commands of [_dot] *)

Lemma floats_minus_1_inr (ps : list string) (xs : list F) :
  floats_minus_1 float_of_string float_sub1 ps = inr xs ->
  exists ys, map float_of_string ps = map Some ys /\ xs = map float_sub1 ys.
Proof.
  revert xs. induction ps as [|q ps IH]; intros xs H; simpl in H.
  - injection H as <-. exists []. done.
  - destruct (float_of_string q) as [y|] eqn:Hq; [|discriminate].
    destruct (floats_minus_1 float_of_string float_sub1 ps) as [e|xs'] eqn:Hr;
      [discriminate|].
    injection H as <-. destruct (IH xs' eq_refl) as (ys & Hm & ->).
    exists (y :: ys). simpl. by rewrite Hq, Hm.
Qed.

Lemma dot_region_cmd_words (sy ctype ds9Cmd : string) :
  dot_region_cmd float_of_string float_sub1 sy ctype ds9Cmd =
  match cmd_words ds9Cmd with
  | [] => inl (IndexError "list index out of range")
  | name :: args =>
      if String.eqb name "line" then
        match floats_minus_1 float_of_string float_sub1 args with
        | inl e => inl e
        | inr xs => mk_Line xs ctype
        end
      else if String.eqb name "text" then
        match floats_minus_1 float_of_string float_sub1 (take 2 args) with
        | inl e => inl e
        | inr [x; y] => inr (PText x y sy ctype)
        | inr _ => inl (ValueError "not enough values to unpack")
        end
      else inl (RuntimeError ds9Cmd)
  end.
Proof.
  unfold dot_region_cmd, cmd_words.
  by destruct (split_on "#"%char ds9Cmd).
Qed.

Lemma dot_region_cmd_shifted (sy ctype ds9Cmd : string) (p : prim) :
  dot_region_cmd float_of_string float_sub1 sy ctype ds9Cmd = inr p ->
  shifted_prim float_of_string float_sub1 sy ctype ds9Cmd p.
Proof.
  rewrite dot_region_cmd_words. unfold shifted_prim, cmd_name, cmd_args.
  destruct (cmd_words ds9Cmd) as [|name args]; [discriminate|]. simpl.
  destruct (String.eqb_spec name "line") as [->|Hl].
  - destruct (floats_minus_1 _ _ args) as [e|xs] eqn:Hf; [discriminate|].
    destruct (floats_minus_1_inr _ _ Hf) as (ys & Hm & ->).
    intros H. left. split; [reflexivity|].
    destruct ys as [|y1 [|y2 [|y3 [|y4 [|y5 ys]]]]]; try discriminate.
    injection H as <-. exists y1, y2, y3, y4. by rewrite Hm.
  - destruct (String.eqb_spec name "text") as [->|Ht]; [|discriminate].
    destruct (floats_minus_1 _ _ (take 2 args)) as [e|xs] eqn:Hf; [discriminate|].
    destruct (floats_minus_1_inr _ _ Hf) as (ys & Hm & ->).
    intros H. right. split; [reflexivity|].
    destruct ys as [|y1 [|y2 [|y3 ys]]]; try discriminate.
    injection H as <-. exists y1, y2. by rewrite Hm.
Qed.

Lemma dot_region_cmd_other (sy ctype ds9Cmd : string) :
  cmd_name ds9Cmd <> Some "line" -> cmd_name ds9Cmd <> Some "text" ->
  exists e, dot_region_cmd float_of_string float_sub1 sy ctype ds9Cmd = inl e.
Proof.
  rewrite dot_region_cmd_words. unfold cmd_name.
  destruct (cmd_words ds9Cmd) as [|name args]; simpl; intros Hl Ht; [eauto|].
  destruct (String.eqb_spec name "line"); [congruence|].
  destruct (String.eqb_spec name "text"); [congruence|]. eauto.
Qed.

Lemma dot_region_loop_inr self (sy ctype : string) (cmds : list string) (w w' : world) :
  dot_region_loop float_of_string float_sub1 self sy ctype cmds w = (w', inr ()) ->
  exists ps,
    Forall2 (fun c p => dot_region_cmd float_of_string float_sub1 sy ctype c = inr p)
      cmds ps /\
    w' = add_all (di_canvas self) ps w.
Proof.
  revert w. induction cmds as [|c cmds IH]; intros w H; simpl in H.
  - injection H as <-. exists []. split; [constructor | reflexivity].
  - unfold mbind, M_bind, of_sum in H.
    destruct (dot_region_cmd _ _ sy ctype c) as [e|p] eqn:Hc; [discriminate|].
    simpl in H. destruct (IH _ H) as (ps & Hps & ->).
    exists (p :: ps). split; [constructor; assumption | reflexivity].
Qed.

Lemma dot_region_loop_inl self (sy ctype : string) (cmds : list string) (w : world) :
  Exists (fun c => exists e, dot_region_cmd float_of_string float_sub1 sy ctype c = inl e)
    cmds ->
  exists e, (dot_region_loop float_of_string float_sub1 self sy ctype cmds w).2 = inl e.
Proof.
  revert w. induction cmds as [|c cmds IH]; intros w Hex; [inversion Hex|].
  simpl. unfold mbind, M_bind, of_sum.
  destruct (dot_region_cmd _ _ sy ctype c) as [e|p] eqn:Hc; simpl; [eauto|].
  apply IH. inversion Hex as [? ? [e' He]|]; subst; [congruence | assumption].
Qed.

(** ** Canvases of viewers *)

Lemma vc_alter (g : @viewer F Arr W -> @viewer F Arr W)
    (m : gmap (nat * string) (@viewer F Arr W)) key k :
  (forall v, v_canvases (g v) = v_canvases v) ->
  v_canvases <$> alter g key m !! k = v_canvases <$> m !! k.
Proof.
  intros Hg. destruct (decide (key = k)) as [<-|Hne].
  - rewrite lookup_alter_eq. destruct (m !! key); simpl; [by rewrite Hg|done].
  - by rewrite lookup_alter_ne.
Qed.

Lemma DisplayImpl_init_adds_canvas fr vb op h p oc nl fmt (w : world) :
  exists inst w',
    DisplayImpl_init fr vb op h p oc nl fmt w = (w', inr inst) /\
    v_canvases_of w' (di_display inst) =
      v_canvases_of w (di_display inst) ++ [di_canvas inst] /\
    (forall k, k <> di_display inst -> v_canvases_of w' k = v_canvases_of w k) /\
    w_canvases w' !! di_canvas inst = Some [].
Proof.
  unfold DisplayImpl_init, make_server, server_start, get_viewer, add_canvas,
    viewer_call. unfold_monad.
  destruct (existsb (String.eqb fmt) canvas_types), op;
  destruct (w_cls_server w) as [sid|] eqn:Hc; simpl;
  eexists _, _; (split; [reflexivity|]); simpl;
  unfold v_canvases_of; simpl;
  repeat (rewrite vc_alter by reflexivity);
  match goal with |- context [match w_viewers w !! ?key with _ => _ end] =>
    destruct (w_viewers w !! key) eqn:Hv end; simpl;
  (split; [|split; [intros k Hk|]]);
  repeat (rewrite vc_alter by reflexivity);
  rewrite ?lookup_insert_eq; simpl;
  rewrite ?lookup_insert_ne by congruence; rewrite ?Hv; simpl;
  rewrite ?lookup_insert_eq; simpl; try reflexivity.
Qed.

Definition viewer_canvases_are (V : nat * string -> list nat) (w : world) : Prop :=
  forall k, v_canvases_of w k = V k.

Definition canvas_exists (cid : nat) (w : world) : Prop :=
  is_Some (w_canvases w !! cid).

Lemma keeps_vc_modify V (f : world -> world) :
  (forall w, w_viewers (f w) = w_viewers w) -> keeps (viewer_canvases_are V) (modify f).
Proof.
  intros Hf. apply keeps_modify. intros w Hw k. unfold v_canvases_of. rewrite Hf. apply Hw.
Qed.

Lemma keeps_vc_viewer_call V key c : keeps (viewer_canvases_are V) (viewer_call key c).
Proof.
  apply keeps_modify. intros w Hw k. unfold v_canvases_of. simpl.
  rewrite vc_alter by reflexivity. apply Hw.
Qed.

Lemma keeps_ce_modify cid (f : world -> world) :
  (forall w, w_canvases (f w) = w_canvases w) -> keeps (canvas_exists cid) (modify f).
Proof. intros Hf. apply keeps_modify. intros w Hw. unfold canvas_exists. by rewrite Hf. Qed.

Lemma keeps_ce_insert cid cid' (objs : world -> list prim) :
  keeps (canvas_exists cid)
    (modify (fun w => set_canvases (<[cid' := objs w]> (w_canvases w)) (w_next_canvas w) w)).
Proof.
  apply keeps_modify. intros w Hw. unfold canvas_exists. simpl.
  destruct (decide (cid' = cid)) as [->|Hne].
  - rewrite lookup_insert_eq. eauto.
  - by rewrite lookup_insert_ne.
Qed.

Ltac method_unfold :=
  unfold shutdown_server, _setMaskTransparency, _getMaskTransparency, _mtv,
    _erase, _dot, _drawLines, _scale, _zoom, _pan, print, print_stderr.

Lemma keeps_vc_run_op V self (o : op) :
  keeps (viewer_canvases_are V)
    (run_op (Msk:=Msk) float_of_string float_sub1 degrees getArray ds9_dot self o).
Proof.
  destruct o; simpl; method_unfold; keeps_split;
    try first [ apply keeps_ret | apply keeps_raise | apply keeps_gets
              | apply keeps_of_sum | apply keeps_vc_viewer_call
              | apply keeps_vc_modify; reflexivity ];
    first [apply keeps_dot_region_loop | apply keeps_draw_from | idtac];
    intros; unfold canvas_add, canvas_delete_all, server_stop;
    apply keeps_vc_modify; reflexivity.
Qed.

Lemma keeps_ce_run_op cid self (o : op) :
  keeps (canvas_exists cid)
    (run_op (Msk:=Msk) float_of_string float_sub1 degrees getArray ds9_dot self o).
Proof.
  destruct o; simpl; method_unfold; keeps_split;
    try first [ apply keeps_ret | apply keeps_raise | apply keeps_gets
              | apply keeps_of_sum
              | unfold viewer_call; apply keeps_ce_modify; reflexivity ];
    first [apply keeps_dot_region_loop | apply keeps_draw_from | idtac];
    intros; unfold canvas_add, canvas_delete_all, server_stop;
    first [apply keeps_ce_insert | apply keeps_ce_modify; reflexivity].
Qed.

Lemma DisplayImpl_init_unknown_format fr vb op h p oc nl fmt (w : world) :
  existsb (String.eqb fmt) canvas_types = false ->
  exists inst w',
    DisplayImpl_init fr vb op h p oc nl fmt w = (w', inr inst) /\
    w_stdout w' = w_stdout w ++
      [("Unknown format " ++ dq ++ fmt ++ dq ++ " (allowed: " ++ dq ++ "jpeg" ++ dq
        ++ ", " ++ dq ++ "png" ++ dq ++ ")")%string] /\
    v_calls_of w' (di_display inst) =
      v_calls_of w (di_display inst) ++ (if op then [VOpen] else []) /\
    (forall k, k <> di_display inst -> v_calls_of w' k = v_calls_of w k).
Proof.
  intros Hf.
  unfold DisplayImpl_init, make_server, server_start, get_viewer, add_canvas,
    viewer_call. unfold_monad. rewrite Hf.
  destruct op; destruct (w_cls_server w) as [sid|] eqn:Hc; simpl;
  eexists _, _; (split; [reflexivity|]); simpl;
  unfold v_calls_of; simpl;
  match goal with |- context [match w_viewers w !! ?key with _ => _ end] =>
    destruct (w_viewers w !! key) eqn:Hv end; simpl;
  (split; [reflexivity|split; [|intros k Hk]]);
  rewrite ?lookup_alter_eq; rewrite ?lookup_alter_ne by congruence;
  rewrite ?lookup_insert_eq; rewrite ?lookup_insert_ne by congruence;
  rewrite ?Hv; simpl; rewrite ?app_nil_r; try reflexivity.
Qed.

(** A method call keeps what its steps keep: the objects it adds to the
    instance's canvas, its calls on the instance's viewer, its output,
    and, for the methods that have them, the erasing of the canvas and
    the shutdown of the server. *)
Lemma keeps_run_op_by (P : world -> Prop) self (o : op) :
  (forall p, keeps P (canvas_add (di_canvas self) p)) ->
  (forall c, keeps P (viewer_call (di_display self) c)) ->
  (forall l, keeps P (print l)) ->
  (forall l, keeps P (print_stderr l)) ->
  (erases o = true -> keeps P (canvas_delete_all (di_canvas self))) ->
  (o = OpShutdownServer -> keeps P shutdown_server) ->
  keeps P (run_op (Msk:=Msk) float_of_string float_sub1 degrees getArray ds9_dot self o).
Proof.
  intros Hadd Hvc Hout Herr Hdel Hsh.
  destruct o; simpl;
    unfold _setMaskTransparency, _getMaskTransparency, _mtv, _erase, _dot,
      _drawLines, _scale, _zoom, _pan;
    keeps_split; auto with keeps;
    try (apply keeps_dot_region_loop; exact Hadd);
    try (apply keeps_draw_from; exact Hadd).
Qed.

End Proofs.

(** ** Claims *)

Section Claims.
Context {F Arr Img Msk W Ang Pt : Type}.
Variable float_of_string : string -> option F.
Variable float_sub1 : F -> F.
Variable degrees : F -> F.
Variable getArray : Img -> Arr.
Variable ds9_dot : string -> F -> F -> F -> string -> option F -> exn + list string.

Variable pixelToSky : W -> list F -> exn + list Ang.
Variable asDegrees : Ang -> F.
Variable skyToPixel : W -> Ang -> Ang -> exn + Pt.
Variable times_degrees : F -> Ang.

Local Abbreviation world := (@world F Arr W).
Local Abbreviation run_actions :=
  (run_actions (Msk:=Msk) (W:=W) float_of_string float_sub1 degrees getArray ds9_dot).

(** C1 (code_bug).  [initGinga] reads the module global [server], whose
    only binding is inside [if False:]; in a fresh process, and after any
    sequence of display constructions, [initGinga] calls and method calls,
    [initGinga] raises [NameError] without making, starting or reusing a
    server. *)
Theorem initGinga_NameError_after_any_run (acts : list action) host port oc nl :
  let w := run_actions acts init_world in
  initGinga host port oc nl w = (w, inl (NameError "server")).
Proof.
  simpl. pose proof (run_actions_unbound float_of_string float_sub1 degrees
                       getArray ds9_dot acts init_world eq_refl) as Hu.
  unfold server_unbound in Hu. unfold initGinga. unfold_monad. simpl.
  by rewrite Hu.
Qed.

(** C6.  [shutdown_server] stops the server held in [DisplayImpl.server]
    and clears it; a further call, and every call while no server is
    held, changes nothing; the next construction makes and starts a new
    server (a fresh one, at a new index) and holds it. *)
Theorem shutdown_server_idempotent (w : world) (sid : nat) (s : server) :
  w_cls_server w = Some sid ->
  w_servers w !! sid = Some s ->
  let w1 := (shutdown_server w).1 in
  shutdown_server w = (w1, inr ()) /\
  w_cls_server w1 = None /\
  w_servers w1 !! sid = Some (set_status Stopped s) /\
  (forall i, i <> sid -> w_servers w1 !! i = w_servers w !! i) /\
  shutdown_server w1 = (w1, inr ()) /\
  (forall w' : world, w_cls_server w' = None -> shutdown_server w' = (w', inr ())) /\
  (forall fr vb op h p oc nl fmt,
     let w2 := (DisplayImpl_init fr vb op h p oc nl fmt w1).1 in
     w_cls_server w2 = Some (length (w_servers w1)) /\
     length (w_servers w1) <> sid /\
     w_servers w2 = w_servers w1 ++ [mk_server h p oc (Started nl)]).
Proof.
  intros Hc Hs.
  assert (Hlen : sid < length (w_servers w)) by (apply lookup_lt_is_Some; eauto).
  assert (E : shutdown_server w =
    (set_cls_server None (set_servers (alter (set_status Stopped) sid (w_servers w)) w),
     inr ())).
  { unfold shutdown_server, server_stop. unfold_monad. simpl. by rewrite Hc. }
  rewrite E. simpl.
  split; [reflexivity|]. split; [reflexivity|]. split.
  { rewrite list_lookup_alter_eq, Hs. reflexivity. }
  split. { intros i Hi. apply list_lookup_alter_ne. congruence. }
  split. { apply shutdown_server_none. reflexivity. }
  split. { exact shutdown_server_none. }
  intros fr vb op h p oc nl fmt.
  pose proof (DisplayImpl_init_servers fr vb op h p oc nl fmt
    (set_cls_server None (set_servers (alter (set_status Stopped) sid (w_servers w)) w)))
    as Hi. simpl in Hi. destruct Hi as [Hi1 Hi2].
  split; [exact Hi1|]. split; [rewrite length_alter; lia | exact Hi2].
Qed.

(** C2 (code_bug).  [radectopix] evaluates the bare name [wcs], which the
    module does not bind, instead of the adaptor's [self._wcs]: for every
    wrapped WCS object and every (ra, dec) it raises [NameError] and never
    calls [skyToPixel]. *)
Theorem radectopix_NameError (wcs : W) (ra_deg dec_deg : F) coords naxispath :
  radectopix skyToPixel times_degrees ra_deg dec_deg coords naxispath
    (WcsAdaptorForGinga wcs)
  = (WcsAdaptorForGinga wcs, inl (NameError "wcs")).
Proof. reflexivity. Qed.

(** C5.  On any adaptor object, [pixtosystem] returns what [pixtoradec]
    returns on the same position, whatever [system] and [coords] are, and
    neither call changes the adaptor's attributes. *)
Theorem pixtosystem_is_pixtoradec (o : gmap string W) (idxs : list F)
    (system : pyval) (coords : string) :
  pixtosystem pixelToSky asDegrees idxs system coords o =
    pixtoradec pixelToSky asDegrees idxs coords o /\
  (pixtoradec pixelToSky asDegrees idxs coords o).1 = o /\
  (pixtosystem pixelToSky asDegrees idxs system coords o).1 = o.
Proof.
  unfold pixtosystem, pixtoradec, self_attr. split; [reflexivity|].
  destruct (o !! "_wcs"); simpl; split; reflexivity.
Qed.

(** C7.  Constructing a display adds exactly one canvas, a new and empty
    one, to the viewer of its frame and none to any other viewer; no
    method call on an instance adds a canvas to or removes one from any
    viewer, and the instance's canvas stays in the canvas store; [_erase]
    empties the canvas and leaves the viewers as they were. *)
Theorem display_owns_one_canvas :
  (forall fr vb op h p oc nl fmt (w : world),
     exists inst w',
       DisplayImpl_init fr vb op h p oc nl fmt w = (w', inr inst) /\
       v_canvases_of w' (di_display inst) =
         v_canvases_of w (di_display inst) ++ [di_canvas inst] /\
       (forall k, k <> di_display inst -> v_canvases_of w' k = v_canvases_of w k) /\
       w_canvases w' !! di_canvas inst = Some []) /\
  (forall (self : display_impl) (o : op) (w : world),
     let w' := (run_op (Msk:=Msk) float_of_string float_sub1 degrees getArray ds9_dot
                  self o w).1 in
     (forall k, v_canvases_of w' k = v_canvases_of w k) /\
     (is_Some (w_canvases w !! di_canvas self) ->
      is_Some (w_canvases w' !! di_canvas self))) /\
  (forall (self : display_impl) (w : world),
     w_canvases (_erase self w).1 !! di_canvas self = Some [] /\
     w_viewers (_erase self w).1 = w_viewers w).
Proof.
  split; [|split].
  - apply DisplayImpl_init_adds_canvas.
  - intros self o w w'. split.
    + apply (keeps_vc_run_op float_of_string float_sub1 degrees getArray ds9_dot
               (v_canvases_of w) self o w). intros k. reflexivity.
    + apply (keeps_ce_run_op float_of_string float_sub1 degrees getArray ds9_dot).
  - intros self w. split; [apply lookup_insert_eq | reflexivity].
Qed.

(** C8.  [_mtv] first deletes every object on the instance's canvas: it
    never raises, the canvas is empty afterwards, and its outcome does not
    depend on what the canvas held before.  With neither image nor mask it
    only erases: no viewer call, no image set. *)
Theorem _mtv_erases_first (self : display_impl) (im : option Img) (mk : option Msk)
    (wcs : option W) (title : string) (w : world) :
  let r := _mtv getArray self im mk wcs title w in
  r.2 = inr () /\
  w_canvases r.1 !! di_canvas self = Some [] /\
  (forall objs : list prim,
     _mtv getArray self im mk wcs title
       (set_canvases (<[di_canvas self := objs]> (w_canvases w)) (w_next_canvas w) w)
     = r) /\
  (im = None -> mk = None ->
     r = ((_erase self w).1, inr ()) /\ w_viewers r.1 = w_viewers w).
Proof.
  intros r. subst r. unfold _mtv.
  rewrite (bind_inr _ _ _ _ _ (_erase_eq self w)).
  split; [|split; [|split]].
  - destruct im, mk; reflexivity.
  - destruct im, mk; simpl; apply lookup_insert_eq.
  - intros objs. rewrite (bind_inr _ _ _ _ _ (_erase_eq self _)). simpl.
    unfold set_canvases at 1 3; simpl. by rewrite insert_insert_eq.
  - intros -> ->. split; reflexivity.
Qed.

(** C9.  For a non-empty list of n points [_drawLines] adds, one by one,
    the n-1 segments joining consecutive points in order (none for one
    point) and returns; for the empty list it raises [IndexError] at
    [points[0]] and changes nothing. *)
Theorem _drawLines_segments (self : display_impl) (ctype : string) :
  (forall w : world,
     _drawLines self [] ctype w = (w, inl (IndexError "list index out of range"))) /\
  (forall (p0 : F * F) (ps : list (F * F)) (w : world),
     _drawLines self (p0 :: ps) ctype w =
       (add_all (di_canvas self) (segments (p0 :: ps) ctype) w, inr ()) /\
     length (segments (p0 :: ps) ctype) = length (p0 :: ps) - 1).
Proof.
  split; [reflexivity|]. intros p0 ps w. split.
  - apply draw_from_add_all.
  - apply length_segments.
Qed.

(** C4.  For a string symbol other than ["o"] (the symbols drawn through
    the region commands), if [_dot] returns, it has added one object per
    region command, in order, each a [Line] with all four coordinates of a
    [line] command decremented by one, or a [Text] (of the symbol) at the
    first two coordinates of a [text] command decremented by one; and a
    command with any other name makes [_dot] raise. *)
Theorem _dot_region_shift (self : display_impl) (sy : string) (c r size : F)
    (ctype ff : string) (ta : option F) (cmds : list string) (w : world) :
  sy <> "o" ->
  ds9_dot sy c r size "helvetica" None = inr cmds ->
  let res := _dot float_of_string float_sub1 degrees ds9_dot self (SymStr sy)
               c r size ctype ff ta w in
  (res.2 = inr () ->
   exists ps, Forall2 (shifted_prim float_of_string float_sub1 sy ctype) cmds ps /\
              res.1 = add_all (di_canvas self) ps w) /\
  (Exists (fun cmd => cmd_name cmd <> Some "line" /\ cmd_name cmd <> Some "text") cmds ->
   exists e, res.2 = inl e).
Proof.
  intros Ho Hds res. subst res. unfold _dot.
  destruct (String.eqb_spec sy "o") as [|_]; [contradiction|].
  assert (E : of_sum (ds9_dot sy c r size "helvetica" None) w = (w, inr cmds))
    by (unfold of_sum; by rewrite Hds).
  rewrite (bind_inr _ _ _ _ _ E). split.
  - intros Hret.
    destruct (dot_region_loop float_of_string float_sub1 self sy ctype cmds w)
      as [w' [e|[]]] eqn:Hl; simpl in Hret; [discriminate|].
    apply dot_region_loop_inr in Hl. destruct Hl as (ps & Hps & ->).
    exists ps. split; [|reflexivity].
    eapply Forall2_impl; [exact Hps|]. intros cmd p. apply dot_region_cmd_shifted.
  - intros Hex. apply dot_region_loop_inl.
    eapply Exists_impl; [exact Hex|]. intros cmd [Hl Ht].
    by apply dot_region_cmd_other.
Qed.

(** C10.  [fontFamily] and [textAngle] never change what [_dot] does: two
    calls that differ only in them are the same computation. *)
Theorem _dot_ignores_font (self : display_impl) (symb : symbol) (c r size : F)
    (ctype ff1 ff2 : string) (ta1 ta2 : option F) :
  _dot (Arr:=Arr) (W:=W) float_of_string float_sub1 degrees ds9_dot self symb c r size ctype ff1 ta1 =
  _dot (Arr:=Arr) (W:=W) float_of_string float_sub1 degrees ds9_dot self symb c r size ctype ff2 ta2.
Proof. reflexivity. Qed.

(** C3 (amended).  An unsupported request prints a warning and changes no
    display state beyond what the call does anyway.  [_setMaskTransparency]
    with a maskplane other than [None] changes no display state, and if it
    returns it has printed its warning to [sys.stderr].  [_mtv] with a mask
    does not raise and does exactly what the same call without a mask does
    (erasing the canvas and setting the image, if any), then prints its
    warning.  Constructing a display with a [canvas_format] other than
    ['jpeg'] and ['png'] does not raise, prints a warning and sets no canvas
    format: the only call it makes on a viewer is [open()], on its own
    viewer, when [open] is requested. *)
Theorem unsupported_requests_warn :
  (forall (t mp : pyval) (w : world),
     py_ne_None mp = true ->
     same_display w (_setMaskTransparency t mp w).1 /\
     ((_setMaskTransparency t mp w).2 = inr () ->
      w_stderr (_setMaskTransparency t mp w).1 =
        w_stderr w ++ ["ginga is unable to set transparency for individual maskplanes"])) /\
  (forall (self : display_impl) (im : option Img) (m : Msk) (wcs : option W)
     (title : string) (w : world),
     _mtv getArray self im (Some m) wcs title w =
       (add_stdout "Mask displays are not yet supported in Ginga"
          (_mtv (Msk:=Msk) getArray self im None wcs title w).1, inr ())) /\
  (forall fr vb op h p oc nl fmt (w : world),
     fmt <> "jpeg" -> fmt <> "png" ->
     exists inst w',
       DisplayImpl_init fr vb op h p oc nl fmt w = (w', inr inst) /\
       w_stdout w' = w_stdout w ++
         [("Unknown format " ++ dq ++ fmt ++ dq ++ " (allowed: " ++ dq ++ "jpeg" ++ dq
           ++ ", " ++ dq ++ "png" ++ dq ++ ")")%string] /\
       v_calls_of w' (di_display inst) =
         v_calls_of w (di_display inst) ++ (if op then [VOpen] else []) /\
       (forall k, k <> di_display inst -> v_calls_of w' k = v_calls_of w k)).
Proof.
  split; [|split].
  - intros t mp w Hmp. unfold _setMaskTransparency. rewrite Hmp. unfold_monad.
    destruct (py_percent_noconv _ mp) as [e|msg] eqn:Hfmt; simpl.
    + split; [repeat split|discriminate].
    + split; [repeat split|intros _].
      destruct mp as [| | |[|]| |]; simpl in Hfmt; simplify_eq; reflexivity.
  - intros self im m wcs title w. unfold _mtv.
    rewrite !(bind_inr _ _ _ _ _ (_erase_eq self w)).
    destruct im; reflexivity.
  - intros fr vb op h p oc nl fmt w Hj Hp.
    apply DisplayImpl_init_unknown_format. simpl.
    destruct (String.eqb_spec fmt "jpeg"); [contradiction|].
    destruct (String.eqb_spec fmt "png"); [contradiction|]. reflexivity.
Qed.

End Claims.

(** ** Further properties *)

Section Extras.
Context {F Arr Img Msk W Ang Pt : Type}.
Variable float_of_string : string -> option F.
Variable float_sub1 : F -> F.
Variable degrees : F -> F.
Variable getArray : Img -> Arr.
Variable ds9_dot : string -> F -> F -> F -> string -> option F -> exn + list string.

Variable pixelToSky : W -> list F -> exn + list Ang.
Variable asDegrees : Ang -> F.

Local Abbreviation world := (@world F Arr W).
Local Abbreviation run_op :=
  (run_op (Msk:=Msk) (W:=W) float_of_string float_sub1 degrees getArray ds9_dot).
Local Abbreviation run_actions :=
  (run_actions (Msk:=Msk) (W:=W) float_of_string float_sub1 degrees getArray ds9_dot).

Lemma fst_bind_ret {A} (m : M A) (w : world) :
  ((m ≫= fun _ => mret ()) w).1 = (m w).1.
Proof. unfold mbind, M_bind. by destruct (m w) as [? [|]]. Qed.

(** *** Servers *)

Lemma keeps_server_state_modify S (f : world -> world) :
  (forall w, server_state (f w) = server_state w) ->
  keeps (fun w : world => server_state w = S) (modify f).
Proof. intros Hf. apply keeps_modify. intros w Hw. by rewrite Hf. Qed.

Lemma run_op_server_state (self : display_impl) (o : op) (w : world) :
  o <> OpShutdownServer ->
  server_state (run_op self o w).1 = server_state w.
Proof.
  intros Ho. apply (keeps_run_op_by float_of_string float_sub1 degrees getArray ds9_dot
                      (fun w' => server_state w' = server_state w));
    try (intros; apply keeps_server_state_modify; reflexivity);
    try reflexivity.
  intros ->. contradiction.
Qed.

Lemma servers_ok_init fr vb op h p oc nl fmt (w : world) :
  servers_ok w -> servers_ok (DisplayImpl_init fr vb op h p oc nl fmt w).1.
Proof.
  intros Hw. pose proof (keeps_unbound_init fr vb op h p oc nl fmt w (proj1 Hw)) as Hu.
  destruct Hw as (_ & Hs & Hc).
  pose proof (DisplayImpl_init_servers fr vb op h p oc nl fmt w) as Hi. simpl in Hi.
  set (w' := (DisplayImpl_init fr vb op h p oc nl fmt w).1) in *.
  split; [exact Hu|].
  destruct (w_cls_server w) as [sid|] eqn:Hcw; destruct Hi as [Hc' Hs'];
    rewrite Hc', Hs'; split.
  - intros i s Hi. destruct (Hs i s Hi) as [H|[H H']]; [by left | right; by split].
  - intros sid' [= <-]. by apply Hc.
  - intros i s Hi. destruct (decide (i < length (w_servers w))) as [Hlt|Hge].
    + rewrite lookup_app_l in Hi by exact Hlt.
      destruct (Hs i s Hi) as [H|[H _]]; [by left | discriminate].
    + rewrite lookup_app_r in Hi by lia.
      destruct (i - length (w_servers w)) eqn:Hd; simpl in Hi; [|discriminate].
      injection Hi as <-. right. split; [f_equal; lia | eauto].
  - intros sid [= <-]. rewrite lookup_app_r, Nat.sub_diag by lia. simpl. eauto.
Qed.

Lemma servers_ok_shutdown (w : world) :
  servers_ok w -> servers_ok (shutdown_server w).1.
Proof.
  intros (Hu & Hs & Hc). unfold shutdown_server, server_stop. unfold_monad. simpl.
  destruct (w_cls_server w) as [sid|] eqn:Hcw; simpl; [|unfold servers_ok; rewrite Hcw; exact (conj Hu (conj Hs Hc))].
  split; [exact Hu|]. split; [|discriminate].
  intros i s Hi. simpl in Hi. destruct (decide (i = sid)) as [->|Hne].
  - rewrite list_lookup_alter_eq in Hi.
    destruct (w_servers w !! sid); simpl in Hi; [|discriminate].
    injection Hi as <-. by left.
  - rewrite list_lookup_alter_ne in Hi by congruence.
    destruct (Hs i s Hi) as [H|[H _]]; [by left | congruence].
Qed.

Lemma servers_ok_run_action (a : action) (w : world) :
  servers_ok w ->
  servers_ok (run_action (Msk:=Msk) float_of_string float_sub1 degrees getArray
                ds9_dot a w).1.
Proof.
  intros Hw. destruct a as [fr vb op h p oc nl fmt|h p oc nl|self o]; simpl.
  - rewrite fst_bind_ret. by apply servers_ok_init.
  - unfold initGinga. unfold_monad. simpl. by rewrite (proj1 Hw).
  - assert (Hd : o = OpShutdownServer \/ o <> OpShutdownServer)
      by (destruct o; (left; reflexivity) || (right; discriminate)).
    destruct Hd as [->|Ho].
    + by apply servers_ok_shutdown.
    + pose proof (run_op_server_state self o w Ho) as E.
      unfold server_state in E. injection E as E1 E2 E3.
      destruct Hw as (Hu & Hs & Hc). split; [by rewrite E1|].
      rewrite E2, E3. split; [exact Hs | exact Hc].
Qed.

(** X1.  In every run of a process (any sequence of display
    constructions, [initGinga] calls and method calls), at most one server
    is running: every server made is stopped except the one held by
    [DisplayImpl.server], and that one is started. *)
Theorem at_most_one_running_server (acts : list action) :
  servers_ok (run_actions acts init_world).
Proof.
  assert (H0 : servers_ok (@init_world F Arr W)).
  { split; [reflexivity|]. split; [intros i s Hi; discriminate | discriminate]. }
  revert H0. generalize (@init_world F Arr W) as w.
  induction acts as [|a acts IH]; intros w Hw; simpl; [exact Hw|].
  apply IH, servers_ok_run_action, Hw.
Qed.

(** X2.  No method call other than [shutdown_server] makes, starts, stops
    or replaces a server: the global [server], [DisplayImpl.server] and
    the servers are as before, whether the call returns or raises. *)
Theorem methods_keep_servers (self : display_impl) (o : op) (w : world) :
  o <> OpShutdownServer ->
  w_server (run_op self o w).1 = w_server w /\
  w_cls_server (run_op self o w).1 = w_cls_server w /\
  w_servers (run_op self o w).1 = w_servers w.
Proof.
  intros Ho. pose proof (run_op_server_state self o w Ho) as E.
  unfold server_state in E. injection E as E1 E2 E3. auto.
Qed.

(** *** Canvases and viewers *)

Lemma keeps_shutdown_fields (P : world -> Prop) :
  (forall w s, P w -> P (set_cls_server None (set_servers s w))) ->
  keeps P shutdown_server.
Proof.
  intros Hf w Hw. unfold shutdown_server, server_stop. unfold_monad. simpl.
  destruct (w_cls_server w); simpl; [apply Hf|]; exact Hw.
Qed.

(** X3.  A method call on an instance changes the objects of no canvas
    but the instance's own, and makes calls on no viewer but the
    instance's own, whether it returns or raises. *)
Theorem methods_touch_own_canvas_and_viewer (self : display_impl) (o : op) (w : world) :
  (forall cid, cid <> di_canvas self ->
     w_canvases (run_op self o w).1 !! cid = w_canvases w !! cid) /\
  (forall k, k <> di_display self ->
     v_calls_of (run_op self o w).1 k = v_calls_of w k).
Proof.
  apply (keeps_run_op_by float_of_string float_sub1 degrees getArray ds9_dot
           (fun w' : world =>
              (forall cid, cid <> di_canvas self -> w_canvases w' !! cid = w_canvases w !! cid) /\
              (forall k, k <> di_display self -> v_calls_of w' k = v_calls_of w k)));
    [..| split; intros; reflexivity].
  - intros p w1 [Hc Hv]. unfold canvas_add, modify. simpl. split; [|exact Hv].
    intros cid Hne. rewrite lookup_insert_ne by congruence. by apply Hc.
  - intros c w1 [Hc Hv]. unfold viewer_call, modify. simpl. split; [exact Hc|].
    intros k Hk. unfold v_calls_of in *. simpl.
    rewrite lookup_alter_ne by congruence. by apply Hv.
  - intros l w1 H. exact H.
  - intros l w1 H. exact H.
  - intros _ w1 [Hc Hv]. unfold canvas_delete_all, modify. simpl. split; [|exact Hv].
    intros cid Hne. rewrite lookup_insert_ne by congruence. by apply Hc.
  - intros _. apply keeps_shutdown_fields. intros w1 s H. exact H.
Qed.

(** X4.  Only [_erase] and [_mtv] remove objects from a canvas: every
    other method leaves the objects already on the instance's canvas in
    place and in order, and at most adds objects after them, whether it
    returns or raises. *)
Theorem methods_only_append_objects (self : display_impl) (o : op) (w : world) :
  erases o = false ->
  exists new, objects_of (run_op self o w).1 (di_canvas self) =
              objects_of w (di_canvas self) ++ new.
Proof.
  intros Ho.
  apply (keeps_run_op_by float_of_string float_sub1 degrees getArray ds9_dot
           (fun w' : world => exists new, objects_of w' (di_canvas self) =
                                          objects_of w (di_canvas self) ++ new));
    [..| exists []; by rewrite app_nil_r].
  - intros p w1 [new Hn]. unfold canvas_add, modify, objects_of in *. simpl.
    rewrite lookup_insert_eq. simpl. rewrite Hn. exists (new ++ [p]).
    by rewrite app_assoc.
  - intros c w1 H. exact H.
  - intros l w1 H. exact H.
  - intros l w1 H. exact H.
  - rewrite Ho. discriminate.
  - intros _. apply keeps_shutdown_fields. intros w1 s H. exact H.
Qed.

(** *** [_dot] and its region commands *)

(** X5.  [_dot] draws the symbol ['o'] as one circle of radius [size] at
    [(c, r)], and an ellipse object as one ellipse at [(c, r)] with radii
    [getA()], [getB()] and rotation [math.degrees(getTheta())], ignoring
    [size]; both are drawn at [(c, r)] itself, without the one-pixel shift of
    the region commands, and neither consults [ds9Regions.dot]. *)
Theorem _dot_circle_ellipse (ds9_dot' : string -> F -> F -> F -> string -> option F -> exn + list string)
    (self : display_impl) (c r size size' : F) (a b theta : F)
    (ctype ff : string) (ta : option F) (w : world) :
  let dot := _dot float_of_string float_sub1 degrees in
  (dot ds9_dot self (SymStr "o") c r size ctype ff ta w =
     dot ds9_dot' self (SymStr "o") c r size ctype ff ta w /\
   (dot ds9_dot self (SymStr "o") c r size ctype ff ta w).2 = inr () /\
   objects_of (dot ds9_dot self (SymStr "o") c r size ctype ff ta w).1 (di_canvas self) =
     objects_of w (di_canvas self) ++ [PCircle c r size ctype]) /\
  (dot ds9_dot self (SymCore a b theta) c r size ctype ff ta w =
     dot ds9_dot' self (SymCore a b theta) c r size' ctype ff ta w /\
   (dot ds9_dot self (SymCore a b theta) c r size ctype ff ta w).2 = inr () /\
   objects_of (dot ds9_dot self (SymCore a b theta) c r size ctype ff ta w).1 (di_canvas self) =
     objects_of w (di_canvas self) ++ [PEllipse c r a b (degrees theta) ctype]).
Proof.
  simpl. unfold objects_of. simpl. rewrite !lookup_insert_eq. simpl.
  repeat split; reflexivity.
Qed.

Lemma split_pred_app (p : ascii -> bool) (sep : ascii) (a b : string) :
  p sep = true -> Forall (fun x => p x = false) (list_ascii_of_string a) ->
  split_pred p (a ++ String sep b) = a :: split_pred p b /\ split_pred p a = [a].
Proof.
  intros Hs. induction a as [|x a IH]; simpl; intros Ha.
  - by rewrite Hs.
  - inversion Ha as [|? ? Hx Ha']; subst. rewrite Hx.
    destruct (IH Ha') as [-> ->]. done.
Qed.

(** X6.  The comment of a region command (the text after its first
    ['#']) never changes what [_dot] draws for it: a command with a
    comment gives an object exactly when the command without it does, and
    the same object. *)
Theorem dot_region_cmd_comment (sy ctype a b : string) (p : prim) :
  ~ In "#"%char (list_ascii_of_string a) ->
  dot_region_cmd float_of_string float_sub1 sy ctype (a ++ "#" ++ b) = inr p <->
  dot_region_cmd float_of_string float_sub1 sy ctype a = inr p.
Proof.
  intros Ha.
  assert (Hf : Forall (fun x => Ascii.eqb x "#"%char = false) (list_ascii_of_string a)).
  { apply Forall_forall. intros x Hx. apply Ascii.eqb_neq. intros ->. apply Ha, list_elem_of_In, Hx. }
  destruct (split_pred_app _ "#"%char a b eq_refl Hf) as [H1 H2].
  unfold dot_region_cmd, split_on. cbv zeta. rewrite H2. change ((a ++ "#" ++ b)%string) with ((a ++ String "#"%char b)%string). rewrite H1.
  destruct (py_split a) as [|n args]; [split; discriminate|].
  destruct (String.eqb n "line"); [reflexivity|].
  destruct (String.eqb n "text"); [reflexivity|]. split; discriminate.
Qed.




Lemma dot_region_loop_partial self (sy ctype : string) (pre post : list string)
    (bad : string) (ps : list prim) (e : exn) (w : world) :
  Forall2 (fun c p => dot_region_cmd float_of_string float_sub1 sy ctype c = inr p) pre ps ->
  dot_region_cmd float_of_string float_sub1 sy ctype bad = inl e ->
  dot_region_loop float_of_string float_sub1 self sy ctype (pre ++ bad :: post) w =
    (add_all (di_canvas self) ps w, inl e).
Proof.
  intros Hps Hbad. revert w. induction Hps as [|c p pre ps Hc Hps IH]; intros w; simpl.
  - unfold mbind, M_bind, of_sum. by rewrite Hbad.
  - unfold mbind at 1, M_bind at 1, of_sum at 1. rewrite Hc. simpl. apply IH.
Qed.

(** X8.  When [_dot] draws through the region commands and one of them
    fails, the objects of the commands before it stay on the canvas and
    [_dot] raises that command's exception; the commands after it are not
    drawn.  When [ds9Regions.dot] itself raises, nothing is drawn. *)
Theorem _dot_partial_on_error (self : display_impl) (sy : string) (c r size : F)
    (ctype ff : string) (ta : option F) (w : world) :
  let res := _dot float_of_string float_sub1 degrees ds9_dot self (SymStr sy)
               c r size ctype ff ta w in
  sy <> "o" ->
  (forall pre bad post ps e,
     ds9_dot sy c r size "helvetica" None = inr (pre ++ bad :: post) ->
     Forall2 (fun cmd p => dot_region_cmd float_of_string float_sub1 sy ctype cmd = inr p)
       pre ps ->
     dot_region_cmd float_of_string float_sub1 sy ctype bad = inl e ->
     res = (add_all (di_canvas self) ps w, inl e)) /\
  (forall e, ds9_dot sy c r size "helvetica" None = inl e -> res = (w, inl e)).
Proof.
  intros res Ho. subst res. unfold _dot.
  destruct (String.eqb_spec sy "o") as [|_]; [contradiction|]. split.
  - intros pre bad post ps e Hd Hps Hbad.
    assert (E : of_sum (ds9_dot sy c r size "helvetica" None) w = (w, inr (pre ++ bad :: post)))
      by (unfold of_sum; by rewrite Hd).
    rewrite (bind_inr _ _ _ _ _ E). by apply dot_region_loop_partial.
  - intros e Hd. unfold mbind, M_bind, of_sum. by rewrite Hd.
Qed.

(** *** Viewer calls *)


(** X12.  When [_mtv] is given an image, it sets on the instance's viewer
    an [AstroImage] of the image's array; with a WCS it attaches a
    [WcsAdaptorForGinga] of that WCS, whose [pixtoradec] answers with that
    WCS's [pixelToSky] in degrees, and without one it attaches none. *)
Theorem _mtv_sets_image (self : display_impl) (im : Img) (mk : option Msk)
    (wcs : W) (title : string) (w : world) (v : @viewer F Arr W) :
  w_viewers w !! di_display self = Some v ->
  v_calls_of (_mtv getArray self (Some im) mk (Some wcs) title w).1 (di_display self) =
    v_calls v ++ [VSetImage (mk_astro_image (getArray im) (Some (WcsAdaptorForGinga wcs)))] /\
  v_calls_of (_mtv getArray self (Some im) mk None title w).1 (di_display self) =
    v_calls v ++ [VSetImage (mk_astro_image (getArray im) None)] /\
  (forall idxs coords,
     pixtoradec pixelToSky asDegrees idxs coords (WcsAdaptorForGinga wcs) =
     (WcsAdaptorForGinga wcs,
      match pixelToSky wcs idxs with
      | inl e => inl e
      | inr [ra; dec] => inr (asDegrees ra, asDegrees dec)
      | inr _ => inl (ValueError "wrong number of values to unpack")
      end)).
Proof.
  intros Hv. unfold _mtv, viewer_call, print. unfold_monad.
  split; [|split].
  - destruct mk; simpl; unfold v_calls_of; simpl; by rewrite lookup_alter_eq, Hv.
  - destruct mk; simpl; unfold v_calls_of; simpl; by rewrite lookup_alter_eq, Hv.
  - intros idxs coords. unfold pixtoradec, self_attr, WcsAdaptorForGinga.
    by rewrite lookup_singleton_eq.
Qed.

(** *** Constructing displays *)

Lemma DisplayImpl_init_canvas fr vb op h p oc nl fmt (w : world) :
  exists w',
    DisplayImpl_init fr vb op h p oc nl fmt w =
      (w', inr (mk_display_impl
                  (match w_cls_server w with Some sid => sid | None => length (w_servers w) end, fr)
                  (w_next_canvas w))) /\
    w_next_canvas w' = S (w_next_canvas w) /\
    w_canvases w' !! w_next_canvas w = Some [] /\
    (forall cid, cid <> w_next_canvas w -> w_canvases w' !! cid = w_canvases w !! cid).
Proof.
  unfold DisplayImpl_init, make_server, server_start, get_viewer, add_canvas,
    viewer_call. unfold_monad.
  destruct (existsb (String.eqb fmt) canvas_types), op;
  destruct (w_cls_server w) as [sid|] eqn:Hc; simpl;
  match goal with |- context [match w_viewers w !! ?key with _ => _ end] =>
    destruct (w_viewers w !! key) eqn:Hv end; simpl;
  eexists; (split; [reflexivity|]); simpl;
  (split; [reflexivity|split; [apply lookup_insert_eq|]]);
  intros cid Hne; by rewrite lookup_insert_ne by congruence.
Qed.


Lemma DisplayImpl_init_display fr vb op h p oc nl fmt (w : world) :
  exists w' inst,
    DisplayImpl_init fr vb op h p oc nl fmt w = (w', inr inst) /\
    di_display inst =
      (match w_cls_server w with Some sid => sid | None => length (w_servers w) end, fr) /\
    di_canvas inst = w_next_canvas w /\ w_next_canvas w' = S (w_next_canvas w).
Proof.
  destruct (DisplayImpl_init_canvas fr vb op h p oc nl fmt w) as (w' & E & H1 & _).
  eexists w', _. split; [exact E|]. auto.
Qed.

(** X10.  Two displays constructed one after the other on the same frame
    share one viewer and get two different canvases, both on that viewer;
    the second construction makes no server and reuses the first one's,
    whatever host, port and options it is given. *)
Theorem same_frame_shares_viewer (fr : string) vb1 op1 h1 p1 oc1 nl1 fmt1
    vb2 op2 h2 p2 oc2 nl2 fmt2 (w w1 : world) (i1 : display_impl) :
  DisplayImpl_init fr vb1 op1 h1 p1 oc1 nl1 fmt1 w = (w1, inr i1) ->
  exists w2 i2,
    DisplayImpl_init fr vb2 op2 h2 p2 oc2 nl2 fmt2 w1 = (w2, inr i2) /\
    di_display i2 = di_display i1 /\ di_canvas i2 <> di_canvas i1 /\
    w_cls_server w2 = w_cls_server w1 /\ w_servers w2 = w_servers w1 /\
    v_canvases_of w2 (di_display i1) =
      v_canvases_of w (di_display i1) ++ [di_canvas i1; di_canvas i2].
Proof.
  intros E1.
  destruct (DisplayImpl_init_display fr vb1 op1 h1 p1 oc1 nl1 fmt1 w)
    as (w1' & i1' & E1' & D1 & C1 & N1).
  rewrite E1 in E1'. injection E1' as <- <-.
  destruct (DisplayImpl_init_adds_canvas fr vb1 op1 h1 p1 oc1 nl1 fmt1 w)
    as (i1' & w1' & E1' & V1 & _).
  rewrite E1 in E1'. injection E1' as <- <-.
  pose proof (DisplayImpl_init_servers fr vb1 op1 h1 p1 oc1 nl1 fmt1 w) as S1.
  rewrite E1 in S1. simpl in S1.
  destruct (DisplayImpl_init_display fr vb2 op2 h2 p2 oc2 nl2 fmt2 w1)
    as (w2 & i2 & E2 & D2 & C2 & _).
  destruct (DisplayImpl_init_adds_canvas fr vb2 op2 h2 p2 oc2 nl2 fmt2 w1)
    as (i2' & w2' & E2' & V2 & _).
  rewrite E2 in E2'. injection E2' as <- <-.
  pose proof (DisplayImpl_init_servers fr vb2 op2 h2 p2 oc2 nl2 fmt2 w1) as S2.
  rewrite E2 in S2. simpl in S2.
  assert (Hc1 : exists sid, w_cls_server w1 = Some sid /\ di_display i1 = (sid, fr)).
  { destruct (w_cls_server w) as [sid|]; destruct S1 as [-> _]; eauto. }
  destruct Hc1 as (sid & Hs & Hd1).
  rewrite Hs in S2, D2. destruct S2 as [S2a S2b].
  assert (Hd : di_display i2 = di_display i1) by congruence.
  exists w2, i2. split; [exact E2|]. split; [exact Hd|].
  split; [rewrite C2, C1, N1; lia|]. split; [congruence|]. split; [exact S2b|].
  rewrite <- Hd, V2, Hd, V1, <- app_assoc. reflexivity.
Qed.

(** X14.  Constructing a display with the canvas format ['jpeg'] or
    ['png'] prints nothing and makes on its viewer, after the calls
    already made on it, the call that sets that canvas format, followed
    by [open()] when [open] is requested. *)
Theorem known_canvas_format fr vb op h p oc nl fmt (w : world) :
  fmt = "jpeg" \/ fmt = "png" ->
  exists inst w',
    DisplayImpl_init fr vb op h p oc nl fmt w = (w', inr inst) /\
    w_stdout w' = w_stdout w /\
    v_calls_of w' (di_display inst) =
      v_calls_of w (di_display inst) ++ VSetCanvasFormat fmt :: (if op then [VOpen] else []).
Proof.
  intros Hf.
  assert (Hk : existsb (String.eqb fmt) canvas_types = true)
    by (destruct Hf as [->| ->]; reflexivity).
  unfold DisplayImpl_init, make_server, server_start, get_viewer, add_canvas,
    viewer_call. unfold_monad. rewrite Hk.
  destruct op; destruct (w_cls_server w) as [sid|] eqn:Hc; simpl;
  eexists _, _; (split; [reflexivity|]); simpl;
  unfold v_calls_of; simpl;
  match goal with |- context [match w_viewers w !! ?key with _ => _ end] =>
    destruct (w_viewers w !! key) eqn:Hv end; simpl;
  (split; [reflexivity|]);
  rewrite ?lookup_alter_eq; rewrite ?lookup_insert_eq; rewrite ?Hv; simpl;
  rewrite <- ?app_assoc; reflexivity.
Qed.

(** *** Viewers after a shutdown *)

Lemma DisplayImpl_init_viewers fr vb op h p oc nl fmt (w : world) (k : nat * string) :
  k <> (match w_cls_server w with Some sid => sid | None => length (w_servers w) end, fr) ->
  w_viewers (DisplayImpl_init fr vb op h p oc nl fmt w).1 !! k = w_viewers w !! k.
Proof.
  unfold DisplayImpl_init, make_server, server_start, get_viewer, add_canvas,
    viewer_call. unfold_monad.
  destruct (existsb (String.eqb fmt) canvas_types), op;
  destruct (w_cls_server w) as [sid|] eqn:Hc; simpl; intros Hk;
  match goal with |- context [match w_viewers w !! ?key with _ => _ end] =>
    destruct (w_viewers w !! key) eqn:Hv end; simpl;
  repeat first [ rewrite lookup_alter_ne by congruence
               | rewrite lookup_insert_ne by congruence ];
  reflexivity.
Qed.

Lemma alter_lookup_Some {K V} `{Countable K} (g : V -> V) (m : gmap K V) (key k : K) (v : V) :
  alter g key m !! k = Some v -> exists v0, m !! k = Some v0.
Proof.
  destruct (decide (key = k)) as [<-|Hne].
  - rewrite lookup_alter_eq. destruct (m !! key); simpl; [eauto|discriminate].
  - rewrite lookup_alter_ne by exact Hne. eauto.
Qed.

Lemma inv_init fr vb op h p oc nl fmt (w : world) :
  servers_ok w -> viewers_ok w -> viewers_ok (DisplayImpl_init fr vb op h p oc nl fmt w).1.
Proof.
  intros (_ & _ & Hc) Hv k v Hk.
  pose proof (DisplayImpl_init_servers fr vb op h p oc nl fmt w) as S. simpl in S.
  assert (Hlen : length (w_servers w) <= length (w_servers (DisplayImpl_init fr vb op h p oc nl fmt w).1)
                 /\ (match w_cls_server w with Some sid => sid | None => length (w_servers w) end)
                    < length (w_servers (DisplayImpl_init fr vb op h p oc nl fmt w).1)).
  { destruct (w_cls_server w) as [sid|] eqn:Hcw; destruct S as [_ ->].
    - destruct (Hc sid eq_refl) as (s & nl' & Hs & _). apply lookup_lt_Some in Hs. lia.
    - rewrite length_app. simpl. lia. }
  destruct (decide (k = (match w_cls_server w with Some sid => sid | None => length (w_servers w) end, fr)))
    as [->|Hne]; simpl; [lia|].
  rewrite DisplayImpl_init_viewers in Hk by exact Hne. apply Hv in Hk. lia.
Qed.

Lemma inv_shutdown (w : world) : viewers_ok w -> viewers_ok (shutdown_server w).1.
Proof.
  intros Hv. unfold shutdown_server, server_stop. unfold_monad. simpl.
  destruct (w_cls_server w); simpl; [|exact Hv].
  intros k v Hk. simpl in *. rewrite length_alter. exact (Hv k v Hk).
Qed.

Lemma inv_run_op (self : display_impl) (o : op) (w : world) :
  viewers_ok w -> viewers_ok (run_op self o w).1.
Proof.
  apply (keeps_run_op_by float_of_string float_sub1 degrees getArray ds9_dot viewers_ok);
    try (intros; apply keeps_modify; intros; assumption).
  - intros c. apply keeps_modify. intros w1 Hv k v Hk. simpl in Hk.
    destruct (alter_lookup_Some _ _ _ _ _ Hk) as [v0 Hv0]. exact (Hv k v0 Hv0).
  - intros _ w1. apply inv_shutdown.
Qed.

Lemma inv_run_action (a : action) (w : world) :
  servers_ok w -> viewers_ok w ->
  viewers_ok (run_action (Msk:=Msk) float_of_string float_sub1 degrees getArray
                ds9_dot a w).1.
Proof.
  intros Hs Hv. destruct a as [fr vb op h p oc nl fmt|h p oc nl|self o]; simpl.
  - rewrite fst_bind_ret. by apply inv_init.
  - unfold initGinga. unfold_monad. simpl. by rewrite (proj1 Hs).
  - by apply inv_run_op.
Qed.

Lemma run_actions_inv (acts : list action) (w : world) :
  servers_ok w -> viewers_ok w ->
  servers_ok (run_actions acts w) /\ viewers_ok (run_actions acts w).
Proof.
  revert w. induction acts as [|a acts IH]; intros w Hs Hv; simpl; [done|].
  apply IH; [by apply servers_ok_run_action | by apply inv_run_action].
Qed.

(** X13.  In every run of a process, once [shutdown_server] has been
    called, the next display constructed gets a new viewer, one that no
    display made before had: it starts with the new display's canvas as
    its only canvas. *)
Theorem shutdown_then_new_viewer (acts : list action) fr vb op h p oc nl fmt :
  let w := (shutdown_server (run_actions acts init_world)).1 in
  exists inst w',
    DisplayImpl_init fr vb op h p oc nl fmt w = (w', inr inst) /\
    w_viewers w !! di_display inst = None /\
    v_canvases_of w' (di_display inst) = [di_canvas inst].
Proof.
  intros w.
  assert (H0 : servers_ok (@init_world F Arr W) /\ viewers_ok (@init_world F Arr W)).
  { split; [split; [reflexivity|split; [intros i s Hi; discriminate | discriminate]]|].
    intros k v Hk. discriminate. }
  destruct (run_actions_inv acts _ (proj1 H0) (proj2 H0)) as [_ Hv0].
  assert (Hv : viewers_ok w) by (apply inv_shutdown, Hv0).
  assert (Hc : w_cls_server w = None).
  { subst w. unfold shutdown_server, server_stop. unfold_monad. simpl.
    by destruct (w_cls_server (run_actions acts init_world)) eqn:E; simpl; [|rewrite E]. }
  destruct (DisplayImpl_init_display fr vb op h p oc nl fmt w) as (w' & inst & E & D & _).
  destruct (DisplayImpl_init_adds_canvas fr vb op h p oc nl fmt w)
    as (inst' & w'' & E' & V & _).
  rewrite E in E'. injection E' as <- <-.
  assert (Hn : w_viewers w !! di_display inst = None).
  { rewrite D, Hc. destruct (w_viewers w !! (length (w_servers w), fr)) as [v|] eqn:Hk;
      [|reflexivity].
    apply Hv in Hk. simpl in Hk. lia. }
  exists inst, w'. split; [exact E|]. split; [exact Hn|].
  rewrite V. unfold v_canvases_of. by rewrite Hn.
Qed.

End Extras.

(** * Concrete runs *)

(** C3: [_mtv] with a mask erases the display ([ex_world1] holds a circle
    on the canvas of [ex_self]), and [_setMaskTransparency(50, 'DETECTED')]
    raises [TypeError] at the [%] formatting. *)
Lemma unsupported_requests_counterexample :
  w_canvases ex_world1 !! 0 = Some [PCircle 10%Z 20%Z 3%Z "red"] /\
  (let r := _mtv (Img:=unit) (Msk:=unit) (fun _ => tt) ex_self None (Some tt) None ""
              ex_world1 in
   r.2 = inr () /\ w_canvases r.1 !! 0 = Some [] /\ ~ same_display ex_world1 r.1) /\
  _setMaskTransparency (PyInt 50) (PyStr "DETECTED") ex_world1 =
    (ex_world1, inl (TypeError "not all arguments converted during string formatting")).
Proof.
  split; [reflexivity|]. split; [|reflexivity].
  split; [reflexivity|]. split; [reflexivity|].
  intros (_ & _ & _ & _ & Hc & _).
  apply (f_equal (lookup 0)) in Hc. vm_compute in Hc. discriminate.
Qed.

Lemma unsupported_requests_warn_witness :
  py_ne_None (PyDict []) = true /\
  same_display ex_world1
    (_setMaskTransparency (F:=Z) (Arr:=unit) (W:=unit) (PyInt 50) (PyDict []) ex_world1).1 /\
  "gif" <> "jpeg" /\ "gif" <> "png" /\
  exists inst w',
    DisplayImpl_init (F:=Z) (Arr:=unit) (W:=unit) "2" false true "localhost" 9914%Z
      false true "gif" ex_world1 = (w', inr inst) /\
    v_calls_of w' (di_display inst) = v_calls_of ex_world1 (di_display inst) ++ [VOpen].
Proof.
  destruct (unsupported_requests_warn (F:=Z) (Arr:=unit) (Img:=unit) (Msk:=unit) (W:=unit)
              (fun _ => tt)) as (Ha & _ & Hc).
  split; [reflexivity|]. split; [apply Ha; reflexivity|].
  split; [discriminate|]. split; [discriminate|].
  destruct (Hc "2" false true "localhost" 9914%Z false true "gif" ex_world1)
    as (inst & w' & E & _ & Hv & _); [discriminate|discriminate|].
  exists inst, w'. split; [exact E|exact Hv].
Defined.

Lemma shutdown_server_idempotent_witness :
  w_cls_server ex_init.1 = Some 0 /\
  w_servers ex_init.1 !! 0 = Some (mk_server "localhost" 9914%Z false (Started true)) /\
  shutdown_server (shutdown_server ex_init.1).1 = ((shutdown_server ex_init.1).1, inr ()).
Proof.
  split; [reflexivity|]. split; [reflexivity|].
  pose proof (shutdown_server_idempotent ex_init.1 0
                (mk_server "localhost" 9914%Z false (Started true))
                eq_refl eq_refl) as T.
  cbv zeta in T. destruct T as (_ & _ & _ & _ & T & _). exact T.
Defined.

Lemma _dot_region_shift_witness :
  "+" <> "o" /\
  ex_ds9_dot "+" 10%Z 20%Z 2%Z "helvetica" None = inr ["line 11 23 11 19"; "line 9 21 13 21"] /\
  exists ps,
    Forall2 (shifted_prim parse_int Z.pred "+" "red")
      ["line 11 23 11 19"; "line 9 21 13 21"] ps /\
    (_dot (Arr:=unit) (W:=unit) parse_int Z.pred id ex_ds9_dot ex_self (SymStr "+")
       10%Z 20%Z 2%Z "red" "helvetica" None ex_init.1).1 = add_all 0 ps ex_init.1.
Proof.
  split; [discriminate|]. split; [reflexivity|].
  pose proof (_dot_region_shift (Arr:=unit) (W:=unit) parse_int Z.pred id ex_ds9_dot
                ex_self "+" 10%Z 20%Z 2%Z "red" "helvetica" None
                ["line 11 23 11 19"; "line 9 21 13 21"] ex_init.1
                ltac:(discriminate) eq_refl) as T.
  cbv zeta in T. destruct T as [T _]. apply T. reflexivity.
Defined.

Lemma display_owns_one_canvas_witness :
  is_Some (w_canvases ex_world1 !! 0) /\
  is_Some (w_canvases (run_op (Img:=unit) (Msk:=unit) parse_int Z.pred id (fun _ => tt)
                         ex_ds9_dot ex_self OpErase ex_world1).1 !! 0).
Proof.
  assert (H : is_Some (w_canvases ex_world1 !! 0)) by (eexists; reflexivity).
  split; [exact H|].
  destruct (display_owns_one_canvas (F:=Z) (Arr:=unit) (Img:=unit) (Msk:=unit) (W:=unit)
              parse_int Z.pred id (fun _ => tt) ex_ds9_dot) as (_ & T & _).
  apply (T ex_self OpErase ex_world1). exact H.
Defined.

Lemma _mtv_erases_first_witness :
  (None : option unit) = None /\ (None : option unit) = None /\
  _mtv (F:=Z) (Arr:=unit) (Msk:=unit) (W:=unit) (fun _ : unit => tt) ex_self None None None "" ex_world1
    = ((_erase ex_self ex_world1).1, inr ()).
Proof.
  split; [reflexivity|]. split; [reflexivity|].
  pose proof (_mtv_erases_first (F:=Z) (Arr:=unit) (Img:=unit) (Msk:=unit) (W:=unit)
                (fun _ => tt) ex_self None None None "" ex_world1) as T.
  cbv zeta in T. destruct T as (_ & _ & _ & T). apply T; reflexivity.
Defined.

Lemma methods_keep_servers_witness :
  OpZoom (Img:=unit) (Msk:=unit) (W:=unit) 2%Z <> OpShutdownServer /\
  w_servers (ex_run_op ex_self (OpZoom 2%Z) ex_world1).1 = w_servers ex_world1.
Proof.
  split; [discriminate|].
  destruct (methods_keep_servers (Img:=unit) (Msk:=unit) parse_int Z.pred id (fun _ => tt)
              ex_ds9_dot ex_self (OpZoom 2%Z) ex_world1 ltac:(discriminate))
    as (_ & _ & H). exact H.
Defined.

Lemma methods_touch_own_canvas_and_viewer_witness :
  1 <> di_canvas ex_self /\
  w_canvases (ex_run_op ex_self OpErase ex_world1).1 !! 1 = w_canvases ex_world1 !! 1.
Proof.
  split; [discriminate|].
  destruct (methods_touch_own_canvas_and_viewer (Img:=unit) (Msk:=unit) parse_int Z.pred
              id (fun _ => tt) ex_ds9_dot ex_self OpErase ex_world1) as [H _].
  apply H. discriminate.
Defined.

Lemma methods_only_append_objects_witness :
  erases (Img:=unit) (Msk:=unit) (W:=unit) (OpDrawLines [(0, 0); (1, 1)]%Z "red") = false /\
  exists new,
    objects_of (ex_run_op ex_self (OpDrawLines [(0, 0); (1, 1)]%Z "red") ex_world1).1 0 =
    objects_of ex_world1 0 ++ new.
Proof.
  split; [reflexivity|].
  apply (methods_only_append_objects parse_int Z.pred id (fun _ => tt) ex_ds9_dot ex_self
           (OpDrawLines [(0, 0); (1, 1)]%Z "red") ex_world1).
  reflexivity.
Defined.

Lemma dot_region_cmd_comment_witness :
  ~ In "#"%char (list_ascii_of_string "line 11 21 13 23 ") /\
  (dot_region_cmd parse_int Z.pred "+" "red" ("line 11 21 13 23 " ++ "#" ++ " color=red")%string =
     inr (PLine 10 20 12 22 "red")%Z <->
   dot_region_cmd parse_int Z.pred "+" "red" "line 11 21 13 23 " =
     inr (PLine 10 20 12 22 "red")%Z).
Proof.
  assert (H : ~ In "#"%char (list_ascii_of_string "line 11 21 13 23 ")).
  { simpl. intros H. repeat (destruct H as [H|H]; [discriminate H|]). exact H. }
  split; [exact H|]. exact (dot_region_cmd_comment parse_int Z.pred "+" "red" _ _ _ H).
Defined.


Lemma _dot_partial_on_error_witness :
  "+" <> "o" /\
  _dot (Arr:=unit) (W:=unit) parse_int Z.pred id ex_bad_dot ex_self (SymStr "+")
    10%Z 20%Z 2%Z "red" "helvetica" None ex_world1 =
  (add_all 0 [PLine 0 1 2 3 "red"]%Z ex_world1, inl (RuntimeError "box 5 6 7 8")).
Proof.
  assert (Ho : "+" <> "o") by discriminate. split; [exact Ho|].
  pose proof (_dot_partial_on_error (Arr:=unit) (W:=unit) parse_int Z.pred id ex_bad_dot
                ex_self "+" 10%Z 20%Z 2%Z "red" "helvetica" None ex_world1) as T.
  cbv zeta in T. destruct (T Ho) as [T1 _].
  apply (T1 ["line 1 2 3 4"] "box 5 6 7 8" ["line 1 1 2 2"]).
  - reflexivity.
  - constructor; [reflexivity|constructor].
  - reflexivity.
Defined.


Lemma _mtv_sets_image_witness :
  w_viewers ex_world1 !! di_display ex_self = Some (mk_viewer [0] [VSetCanvasFormat "jpeg"]) /\
  v_calls_of (_mtv (F:=Z) (Arr:=unit) (Img:=unit) (Msk:=unit) (W:=unit) (fun _ => tt)
                ex_self (Some tt) None (Some tt) "" ex_world1).1 (0, "1") =
    [VSetCanvasFormat "jpeg"; VSetImage (mk_astro_image tt (Some (WcsAdaptorForGinga tt)))].
Proof.
  assert (Hv : w_viewers ex_world1 !! di_display ex_self =
                 Some (mk_viewer [0] [VSetCanvasFormat "jpeg"])) by reflexivity.
  split; [exact Hv|].
  destruct (_mtv_sets_image (F:=Z) (Arr:=unit) (Img:=unit) (Msk:=unit) (W:=unit) (Ang:=unit)
              (fun _ => tt) (fun _ _ => inr []) (fun _ => 0%Z) ex_self tt None tt "" ex_world1
              _ Hv) as [T _].
  exact T.
Defined.


Lemma same_frame_shares_viewer_witness :
  DisplayImpl_init "1" false false "localhost" 9914%Z false true "jpeg" ex_world0 =
    (ex_init.1, inr ex_self) /\
  exists w2 i2,
    DisplayImpl_init "1" false true "otherhost" 8000%Z true false "png" ex_init.1 = (w2, inr i2) /\
    di_display i2 = di_display ex_self /\ di_canvas i2 <> di_canvas ex_self.
Proof.
  assert (E : DisplayImpl_init "1" false false "localhost" 9914%Z false true "jpeg" ex_world0 =
                (ex_init.1, inr ex_self)) by reflexivity.
  split; [exact E|].
  destruct (same_frame_shares_viewer (F:=Z) (Arr:=unit) (W:=unit) "1" false false "localhost"
              9914%Z false true "jpeg" false true "otherhost" 8000%Z true false "png"
              ex_world0 ex_init.1 ex_self E) as (w2 & i2 & E2 & D & C & _).
  exists w2, i2. auto.
Defined.

Lemma known_canvas_format_witness :
  ("png" = "jpeg" \/ "png" = "png") /\
  exists inst w',
    DisplayImpl_init (F:=Z) (Arr:=unit) (W:=unit) "2" false true "localhost" 9914%Z
      false true "png" ex_world1 = (w', inr inst) /\
    w_stdout w' = w_stdout ex_world1.
Proof.
  assert (H : "png" = "jpeg" \/ "png" = "png") by (right; reflexivity).
  split; [exact H|].
  destruct (known_canvas_format (F:=Z) (Arr:=unit) (W:=unit) "2" false true "localhost" 9914%Z
              false true "png" ex_world1 H) as (inst & w' & E & O & _).
  exists inst, w'. auto.
Defined.
